(** * The VOSK transcription server ([server/vosk_server.py])

    A shallow embedding of the request handler [transcribe] and of its helper
    [convert_to_wav], together with the properties of the handler that the
    specification of the service states.

    The handler talks to a file system, to the [ffmpeg] subprocess, to the
    [wave] reader and to the VOSK recogniser.  These collaborators are not part
    of the program: they are taken as arbitrary functions ([Collab]) and
    arbitrary per-request outcomes ([Env]), and every call the handler makes is
    recorded, with its arguments, in a trace. *)

From Stdlib Require Import ZArith NArith Lia String Ascii.
From stdpp Require Import base option list gmap.

Local Open Scope Z_scope.

(** ** Python values *)

(** A Python [str] is a sequence of Unicode code points. *)
Abbreviation char := N (only parsing).
Abbreviation str := (list N) (only parsing).

(** A Python [bytes] object. *)
Abbreviation bytes := (list Byte.byte) (only parsing).

(** String literals of the source. *)
Fixpoint lit (s : string) : str :=
  match s with
  | EmptyString => []
  | String c s' => N_of_ascii c :: lit s'
  end.
Arguments lit _%_string : simpl never.

(** The JSON values the handler looks at: a string, an object, or anything
    else (null, a number, a boolean, an array), of which the handler only ever
    tests the truth value. *)
#[local] Set Warnings "-register-all".
Inductive pyval : Type :=
  | PStr (s : str)
  | PDict (d : list (str * pyval))
  | POther (truth : bool).

(** [bool(v)]. *)
Definition truthy (v : pyval) : bool :=
  match v with
  | PStr s => negb (bool_decide (s = []))
  | PDict d => match d with [] => false | _ :: _ => true end
  | POther b => b
  end.

(** An exception instance, of a subclass of [Exception]: its class name and
    [str(e)]. *)
Record Exn : Type := mkExn { exn_class : str; exn_str : str }.

(** The outcome of a call: a value, or a raised exception. *)
Inductive result (A : Type) : Type :=
  | Ok (a : A)
  | Error (e : Exn).
Arguments Ok {A} a.
Arguments Error {A} e.

(** ** String operations of the Python runtime used by the handler *)

(** [str.isspace] on one code point (CPython's [_PyUnicode_IsWhitespace]). *)
Definition isspace (c : char) : bool :=
  ((9 <=? c) && (c <=? 13) || (28 <=? c) && (c <=? 32)
   || (c =? 133) || (c =? 160) || (c =? 5760)
   || (8192 <=? c) && (c <=? 8202)
   || (c =? 8232) || (c =? 8233) || (c =? 8239) || (c =? 8287)
   || (c =? 12288))%N.

Fixpoint lstrip (s : str) : str :=
  match s with
  | [] => []
  | c :: s' => if isspace c then lstrip s' else s
  end.

Definition rstrip (s : str) : str := reverse (lstrip (reverse s)).

(** [s.strip()]. *)
Definition strip (s : str) : str := rstrip (lstrip s).

(** [sep.join(l)] on a list of strings. *)
Fixpoint sep_join (sep : str) (l : list str) : str :=
  match l with
  | [] => []
  | [x] => x
  | x :: rest => x ++ sep ++ sep_join sep rest
  end.

(** [sep.join(l)] on a list of values: a [TypeError] unless every item is a
    string. *)
Fixpoint as_strs (l : list pyval) : option (list str) :=
  match l with
  | [] => Some []
  | PStr s :: rest => cons s <$> as_strs rest
  | _ :: _ => None
  end.

Definition TypeError_join : Exn :=
  mkExn (lit "TypeError") (lit "sequence item: expected str instance").

Definition str_join (sep : str) (l : list pyval) : result str :=
  match as_strs l with
  | Some ss => Ok (sep_join sep ss)
  | None => Error TypeError_join
  end.

(** [d.get(key, default)]; a value that is not a dict has no [get]. *)
Fixpoint assoc_get (key : str) (d : list (str * pyval)) : option pyval :=
  match d with
  | [] => None
  | (k, v) :: d' => if bool_decide (k = key) then Some v else assoc_get key d'
  end.

Definition AttributeError_get : Exn :=
  mkExn (lit "AttributeError") (lit "object has no attribute 'get'").

Definition py_get (r : pyval) (key : str) (dflt : pyval) : result pyval :=
  match r with
  | PDict d => Ok (default dflt (assoc_get key d))
  | _ => Error AttributeError_get
  end.

(** [str(n)] for an integer. *)
Definition digit (d : N) : char := (48 + d)%N.

Fixpoint digits (fuel : nat) (n : N) (acc : str) : str :=
  match fuel with
  | O => acc
  | S fuel' =>
      let acc' := digit (n mod 10) :: acc in
      if (n <? 10)%N then acc' else digits fuel' (n / 10) acc'
  end.

Definition str_of_int (z : Z) : str :=
  let n := Z.abs_N z in
  let ds := digits (S (N.to_nat (N.log2 n))) n [] in
  if z <? 0 then 45%N :: ds else ds.

(** ** [os.path.splitext] (posixpath) *)

(** [p.rfind(c)]: the last index of [c] in [p], or [-1]. *)
Fixpoint rfind_from (i : Z) (c : char) (p : str) (found : Z) : Z :=
  match p with
  | [] => found
  | x :: p' => rfind_from (i + 1) c p' (if (x =? c)%N then i else found)
  end.

Definition rfind (c : char) (p : str) : Z := rfind_from 0 c p (-1).

Definition sep_char : char := 47%N.
Definition extsep_char : char := 46%N.

(** The loop of [genericpath._splitext] that skips the leading dots of the
    last path component: [true] when some character between [filenameIndex]
    and [dotIndex] is not a dot. *)
Fixpoint has_non_dot (n : nat) (filenameIndex : Z) (p : str) : bool :=
  match n with
  | O => false
  | S n' =>
      match p !! Z.to_nat filenameIndex with
      | Some c =>
          if negb (c =? extsep_char)%N then true
          else has_non_dot n' (filenameIndex + 1) p
      | None => true
      end
  end.

Definition splitext (p : str) : str * str :=
  let sepIndex := rfind sep_char p in
  let dotIndex := rfind extsep_char p in
  if (dotIndex >? sepIndex)
     && has_non_dot (Z.to_nat (dotIndex - (sepIndex + 1))) (sepIndex + 1) p
  then (take (Z.to_nat dotIndex) p, drop (Z.to_nat dotIndex) p)
  else (p, []).

(** [a or b] on strings. *)
Definition str_or (a b : str) : str :=
  if bool_decide (a = []) then b else a.

(** ** The world outside the handler *)

(** Every call the handler makes to a collaborator, with its arguments, in
    the order of the calls.  An event records the call, whether it then
    succeeds or raises. *)
Inductive Event : Type :=
  | EvNamedTemporaryFile (suffix : str)
  | EvSave (dst : str)
  | EvMkstemp (suffix : str)
  | EvClose (fd : Z)
  | EvRun (cmd : list str)
  | EvWaveOpen (path : str)
  | EvKaldiRecognizer (rate : Z)
  | EvSetWords (b : bool)
  | EvReadframes (nframes : Z)
  | EvAcceptWaveform (data : bytes)
  | EvResult
  | EvFinalResult
  | EvUnlink (path : str).

(** The state the handler acts on: the files on disk and the trace. *)
Record World : Type := mkWorld {
  fs : gmap (list N) (list Byte.byte);
  trace : list Event
}.

(** What [subprocess.run] returns. *)
Record CompletedProcess : Type := mkProc {
  returncode : Z;
  stderr : bytes
}.

(** What [wave.open] reads from the header of a file, and its sample data. *)
Record Wave : Type := mkWave {
  framerate : Z;
  framesize : nat;           (* nchannels * sampwidth *)
  wavdata : bytes
}.

(** An open [Wave_read] object: the header, the data not read yet, and the
    number of reads so far. *)
Record WaveRead : Type := mkWaveRead {
  wr_header : Wave;
  wr_rest : bytes;
  wr_reads : nat
}.

(** The collaborators, as functions of what they are given: the subprocess
    launcher (which may read and write files), the UTF-8 codec, the [wave]
    parser, the JSON parser and the recogniser (a state machine). *)
Record Collab : Type := mkCollab {
  Rec : Type;
  run : list str -> gmap (list N) (list Byte.byte) ->
        result (CompletedProcess * gmap (list N) (list Byte.byte));
  utf8_decode : bytes -> result str;
  wave_parse : bytes -> result Wave;
  json_loads : str -> result pyval;
  KaldiRecognizer : Z -> result Rec;
  SetWords : Rec -> bool -> result Rec;
  AcceptWaveform : Rec -> bytes -> result (bool * Rec);
  Result : Rec -> result (str * Rec);
  FinalResult : Rec -> result (str * Rec)
}.

(** What is incidental to one request: the temp directory, the random parts
    of the two temp names, the descriptor [mkstemp] returns, and the operating
    system errors that a call may meet. *)
Record Env : Type := mkEnv {
  tempdir : str;
  tmp_token : result str;
  save_fault : option Exn;
  wav_token : result (Z * str);
  close_fault : option Exn;
  open_fault : option Exn;
  read_fault : nat -> option Exn;
  unlink_fault : list N -> option Exn
}.

(** An uploaded file ([werkzeug.FileStorage]). *)
Record FileStorage : Type := mkFile {
  filename : str;
  content : bytes
}.

(** A request: the file fields of its multipart body, in order. *)
Record Request : Type := mkRequest {
  files : list (str * FileStorage)
}.

(** What the handler returns: the JSON body and the status. *)
Record Response : Type := mkResponse {
  body : pyval;
  status : Z
}.

(** [jsonify(d)], and the status Flask gives a view that returns no status. *)
Definition jsonify (d : list (str * pyval)) : pyval := PDict d.

(** ** Computations *)

(** A computation acts on the world and returns a value or raises; [None] is
    a loop that ran out of fuel (see [read_loop_total]: it never happens). *)
Definition M (A : Type) : Type := World -> option (result A * World).

Definition ret {A} (a : A) : M A := fun w => Some (Ok a, w).

Definition raise {A} (e : Exn) : M A := fun w => Some (Error e, w).

Definition bind {A B} (m : M A) (k : A -> M B) : M B :=
  fun w =>
    match m w with
    | Some (Ok a, w') => k a w'
    | Some (Error e, w') => Some (Error e, w')
    | None => None
    end.

Declare Scope py_scope.
Delimit Scope py_scope with py.
Notation "'let*' x ':=' m 'in' k" := (bind m (fun x => k))
  (at level 10, x name, m at level 100, k at level 200) : py_scope.
Notation "'let*' ' p ':=' m 'in' k" :=
  (bind m (fun x => match x with p => k end))
  (at level 10, p pattern, m at level 100, k at level 200) : py_scope.
Notation "m ;; k" := (bind m (fun _ => k))
  (at level 100, right associativity) : py_scope.
Local Open Scope py_scope.

(** [try: body except Exception as e: handler(e)]. *)
Definition try_except {A} (body : M A) (handler : Exn -> M A) : M A :=
  fun w =>
    match body w with
    | Some (Error e, w') => handler e w'
    | r => r
    end.

(** [try: body finally: fin]: [fin] runs on every exit of [body]; when [fin]
    completes, the return value or the exception of [body] stands, and when
    [fin] raises, its exception replaces them. *)
Definition try_finally {A} (body : M A) (fin : M unit) : M A :=
  fun w =>
    match body w with
    | Some (r, w') =>
        match fin w' with
        | Some (Ok _, w'') => Some (r, w'')
        | Some (Error e, w'') => Some (Error e, w'')
        | None => None
        end
    | None => None
    end.

(** [try: m except Exception: pass]. *)
Definition try_pass (m : M unit) : M unit := try_except m (fun _ => ret tt).

Definition emit (ev : Event) : M unit :=
  fun w => Some (Ok tt, mkWorld (fs w) (trace w ++ [ev])).

Definition lift {A} (r : result A) : M A :=
  match r with Ok a => ret a | Error e => raise e end.

Definition fault (o : option Exn) : M unit :=
  match o with Some e => raise e | None => ret tt end.

Definition get_fs : M (gmap (list N) (list Byte.byte)) :=
  fun w => Some (Ok (fs w), w).

Definition put_fs (m : gmap (list N) (list Byte.byte)) : M unit :=
  fun w => Some (Ok tt, mkWorld m (trace w)).

(** ** The calls of the handler *)

Definition FileExistsError : Exn :=
  mkExn (lit "FileExistsError") (lit "[Errno 17] File exists").

Definition FileNotFoundError : Exn :=
  mkExn (lit "FileNotFoundError") (lit "[Errno 2] No such file or directory").

Definition BadRequestKeyError : Exn :=
  mkExn (lit "BadRequestKeyError") (lit "400 Bad Request").

Definition RuntimeError (msg : str) : Exn := mkExn (lit "RuntimeError") msg.

(** [key in request.files] and [request.files[key]] (the first value). *)
Definition contains (key : str) (d : list (str * FileStorage)) : bool :=
  existsb (fun kv => bool_decide (kv.1 = key)) d.

Definition getitem (key : str) (d : list (str * FileStorage))
  : result FileStorage :=
  match List.find (fun kv => bool_decide (kv.1 = key)) d with
  | Some kv => Ok kv.2
  | None => Error BadRequestKeyError
  end.

Section Handler.
Context (C : Collab) (env : Env).

(** The name [tempfile] gives a new file: directory, prefix, random part
    and the suffix asked for. *)
Definition temp_name (token suffix : str) : str :=
  tempdir env ++ lit "/tmp" ++ token ++ suffix.

(** A temp file is created exclusively: new and empty.  The random part of
its name is the one [tempfile] settles on; no name being free is an
error. *)
Definition create_excl (name : str) : M unit :=
  let* m := get_fs in
  match m !! name with
  | Some _ => raise FileExistsError
  | None => put_fs (<[name := []]> m)
  end.

(** [tempfile.NamedTemporaryFile(delete=False, suffix=suffix)]: the name
    of the file created. *)
Definition NamedTemporaryFile (suffix : str) : M str :=
  emit (EvNamedTemporaryFile suffix);;
  let* token := lift (tmp_token env) in
  create_excl (temp_name token suffix);;
  ret (temp_name token suffix).

(** [f.save(dst)]. *)
Definition save (f : FileStorage) (dst : str) : M unit :=
  emit (EvSave dst);;
  fault (save_fault env);;
  let* m := get_fs in
  put_fs (<[dst := content f]> m).

(** [tempfile.mkstemp(suffix=suffix)]. *)
Definition mkstemp (suffix : str) : M (Z * str) :=
  emit (EvMkstemp suffix);;
  let* '(fd, token) := lift (wav_token env) in
  create_excl (temp_name token suffix);;
  ret (fd, temp_name token suffix).

(** [os.close(fd)]. *)
Definition os_close (fd : Z) : M unit :=
  emit (EvClose fd);;
  fault (close_fault env).

(** [os.unlink(path)]. *)
Definition os_unlink (path : str) : M unit :=
  emit (EvUnlink path);;
  fault (unlink_fault env path);;
  let* m := get_fs in
  match m !! path with
  | Some _ => put_fs (delete path m)
  | None => raise FileNotFoundError
  end.

(** [subprocess.run(cmd, stdout=PIPE, stderr=PIPE)]: returns once the
    process has exited, with its return code and error stream. *)
Definition subprocess_run (cmd : list str) : M CompletedProcess :=
  emit (EvRun cmd);;
  let* m := get_fs in
  let* '(proc, m') := lift (run C cmd m) in
  put_fs m';;
  ret proc.

(** [wave.open(path, 'rb')]. *)
Definition wave_open (path : str) : M WaveRead :=
  emit (EvWaveOpen path);;
  fault (open_fault env);;
  let* m := get_fs in
  match m !! path with
  | Some b =>
      let* h := lift (wave_parse C b) in
      ret (mkWaveRead h (wavdata h) 0)
  | None => raise FileNotFoundError
  end.

Definition getframerate (wf : WaveRead) : Z := framerate (wr_header wf).

(** [wf.readframes(nframes)]: the next [nframes] frames, fewer at the end
    of the data, and the reader advanced past them. *)
Definition readframes (wf : WaveRead) (nframes : Z) : M (bytes * WaveRead) :=
  emit (EvReadframes nframes);;
  fault (read_fault env (wr_reads wf));;
  let n := (Z.to_nat nframes * framesize (wr_header wf))%nat in
  ret (take n (wr_rest wf),
       mkWaveRead (wr_header wf) (drop n (wr_rest wf)) (S (wr_reads wf))).

Definition new_recognizer (rate : Z) : M (Rec C) :=
  emit (EvKaldiRecognizer rate);;
  lift (KaldiRecognizer C rate).

Definition rec_SetWords (rec : Rec C) (b : bool) : M (Rec C) :=
  emit (EvSetWords b);;
  lift (SetWords C rec b).

Definition rec_AcceptWaveform (rec : Rec C) (data : bytes)
  : M (bool * Rec C) :=
  emit (EvAcceptWaveform data);;
  lift (AcceptWaveform C rec data).

Definition rec_Result (rec : Rec C) : M (str * Rec C) :=
  emit EvResult;;
  lift (Result C rec).

Definition rec_FinalResult (rec : Rec C) : M (str * Rec C) :=
  emit EvFinalResult;;
  lift (FinalResult C rec).

(** ** [convert_to_wav] *)

Definition ffmpeg_cmd (input_path output_path : str) (sample_rate : Z)
  : list str :=
  [ lit "ffmpeg"; lit "-y"; lit "-i"; input_path;
    lit "-ar"; str_of_int sample_rate; lit "-ac"; lit "1";
    lit "-vn"; lit "-f"; lit "wav"; output_path ].

Definition convert_to_wav (input_path output_path : str) (sample_rate : Z)
  : M unit :=
  let cmd := ffmpeg_cmd input_path output_path sample_rate in
  let* proc := subprocess_run cmd in
  if negb (returncode proc =? 0) then
    let* msg := lift (utf8_decode C (stderr proc)) in
    raise (RuntimeError (lit "ffmpeg failed: " ++ take 2000 msg))
  else ret tt.

(** ** [transcribe] *)

(** The [while True] loop of the handler.  Each turn reads a chunk; the
    loop ends at the first empty chunk. *)
Fixpoint read_loop (fuel : nat) (wf : WaveRead) (rec : Rec C)
    (results : list pyval) : M (Rec C * list pyval) :=
  match fuel with
  | O => fun _ => None
  | S fuel' =>
      let* '(data, wf) := readframes wf 4000 in
      if bool_decide (length data = 0%nat) then ret (rec, results)
      else
        let* '(accepted, rec) := rec_AcceptWaveform rec data in
        if accepted : bool then
          let* '(s, rec) := rec_Result rec in
          let* r := lift (json_loads C s) in
          let* t := lift (py_get r (lit "text") (PStr [])) in
          read_loop fuel' wf rec (results ++ [t])
        else read_loop fuel' wf rec results
  end.

(** Lines 55 to 57: the upload is saved in a new temp file. *)
Definition persist_upload (f : FileStorage) : M str :=
  let* tmp := NamedTemporaryFile
                (str_or (splitext (filename f)).2 (lit ".tmp")) in
  save f tmp;;
  ret tmp.

(** Lines 55 to 60: the two temp files of a request. *)
Definition temp_files (f : FileStorage) : M (str * str) :=
  let* tmp_path := persist_upload f in
  let* '(wav_fd, wav_path) := mkstemp (lit ".wav") in
  os_close wav_fd;;
  ret (tmp_path, wav_path).

(** Lines 62 to 77: transcoding and recognition; the value is [results]. *)
Definition recognise (tmp_path wav_path : str) : M (list pyval) :=
  convert_to_wav tmp_path wav_path 16000;;
  let* wf := wave_open wav_path in
  let* rec := new_recognizer (getframerate wf) in
  let* rec := rec_SetWords rec true in
  let* '(rec, results) :=
    read_loop (S (length (wr_rest wf))) wf rec [] in
  let* '(s, rec) := rec_FinalResult rec in
  let* final := lift (json_loads C s) in
  let* t := lift (py_get final (lit "text") (PStr [])) in
  ret (results ++ [t]).

(** Lines 62 to 79: the body of the [try]. *)
Definition try_body (tmp_path wav_path : str) : M Response :=
  let* results := recognise tmp_path wav_path in
  let* joined := lift (str_join (lit " ") (List.filter truthy results)) in
  let text := strip joined in
  ret (mkResponse (jsonify [(lit "text", PStr text)]) 200).

(** Lines 80 and 81. *)
Definition except_handler (e : Exn) : M Response :=
  ret (mkResponse (jsonify [(lit "error", PStr (exn_str e))]) 500).

(** Lines 82 to 90. *)
Definition finally_block (tmp_path wav_path : str) : M unit :=
  try_pass (os_unlink tmp_path);;
  try_pass (os_unlink wav_path).

Definition transcribe (request : Request) : M Response :=
  if negb (contains (lit "file") (files request)) then
    ret (mkResponse
           (jsonify [(lit "error", PStr (lit "file field is required"))])
           400)
  else
    let* f := lift (getitem (lit "file") (files request)) in
    let* '(tmp_path, wav_path) := temp_files f in
    try_finally
      (try_except (try_body tmp_path wav_path) except_handler)
      (finally_block tmp_path wav_path).

End Handler.

(** ** A small installation to run the handler on

    A transcoder that copies its input (and fails on an empty input), a wave
    parser that takes the whole file as 16 kHz one-byte frames, and a
    recogniser that completes a unit at every chunk and says the next string
    of a script. *)

Definition bytes_of (s : string) : bytes :=
  List.map byte_of_ascii (list_ascii_of_string s).
Arguments bytes_of _%_string.

Definition UnicodeDecodeError : Exn :=
  mkExn (lit "UnicodeDecodeError") (lit "'utf-8' codec can't decode byte").

Definition ascii_decode (b : bytes) : result str :=
  if forallb (fun x => (Byte.to_N x <? 128)%N) b
  then Ok (List.map Byte.to_N b)
  else Error UnicodeDecodeError.

Definition copy_transcoder (cmd : list str)
    (m : gmap (list N) (list Byte.byte))
  : result (CompletedProcess * gmap (list N) (list Byte.byte)) :=
  match cmd !! 3%nat, cmd !! 11%nat with
  | Some i, Some o =>
      match m !! i with
      | Some ((_ :: _) as c) => Ok (mkProc 0 [], <[o := c]> m)
      | Some [] => Ok (mkProc 1 (bytes_of "Invalid data found"), <[o := []]> m)
      | None => Ok (mkProc 1 (bytes_of "No such file or directory"), m)
      end
  | _, _ => Error FileNotFoundError
  end.

Definition scripted (script : list str) : Collab :=
  {| Rec := list str;
     run := copy_transcoder;
     utf8_decode := ascii_decode;
     wave_parse := fun b => Ok (mkWave 16000 1 b);
     json_loads := fun s => Ok (PDict [(lit "text", PStr s)]);
     KaldiRecognizer := fun _ => Ok script;
     SetWords := fun r _ => Ok r;
     AcceptWaveform := fun r _ => Ok (true, r);
     Result := fun r => Ok (List.hd [] r, List.tl r);
     FinalResult := fun r => Ok (List.hd [] r, List.tl r) |}.

(** A transcoder that fails and writes bytes that are not UTF-8 on its error
    stream (a name in another encoding, say), and the codec's answer to
    them. *)
Definition invalid_start_byte : Exn :=
  mkExn (lit "UnicodeDecodeError")
    (lit "'utf-8' codec can't decode byte 0xff in position 0: invalid start byte").

Definition strict_decode (b : bytes) : result str :=
  match b with
  | Byte.xff :: _ => Error invalid_start_byte
  | _ => ascii_decode b
  end.

Definition garbled_ffmpeg : Collab :=
  {| Rec := list str;
     run := fun _ m => Ok (mkProc 1 [Byte.xff; Byte.x3a; Byte.x20], m);
     utf8_decode := strict_decode;
     wave_parse := fun b => Ok (mkWave 16000 1 b);
     json_loads := fun s => Ok (PDict [(lit "text", PStr s)]);
     KaldiRecognizer := fun _ => Ok [];
     SetWords := fun r _ => Ok r;
     AcceptWaveform := fun r _ => Ok (true, r);
     Result := fun r => Ok (List.hd [] r, List.tl r);
     FinalResult := fun r => Ok (List.hd [] r, List.tl r) |}.

(** A transcoder that picks its demuxer from the extension of the input
    path: the samples of an [.ogg] input come out in the other order.  The
    recogniser says what it heard. *)
Definition ext_transcoder (cmd : list str)
    (m : gmap (list N) (list Byte.byte))
  : result (CompletedProcess * gmap (list N) (list Byte.byte)) :=
  match cmd !! 3%nat, cmd !! 11%nat with
  | Some i, Some o =>
      match m !! i with
      | Some c =>
          Ok (mkProc 0 [],
              <[o := if bool_decide ((splitext i).2 = lit ".ogg")
                     then reverse c else c]> m)
      | None => Ok (mkProc 1 (bytes_of "No such file or directory"), m)
      end
  | _, _ => Error FileNotFoundError
  end.

Definition by_extension : Collab :=
  {| Rec := str;
     run := ext_transcoder;
     utf8_decode := ascii_decode;
     wave_parse := fun b => Ok (mkWave 16000 1 b);
     json_loads := fun s => Ok (PDict [(lit "text", PStr s)]);
     KaldiRecognizer := fun _ => Ok [];
     SetWords := fun r _ => Ok r;
     AcceptWaveform := fun r data => Ok (false, r ++ List.map Byte.to_N data);
     Result := fun r => Ok (r, []);
     FinalResult := fun r => Ok (r, []) |}.

Definition quiet_env (tok1 tok2 : string) : Env :=
  {| tempdir := lit "/tmp";
     tmp_token := Ok (lit tok1);
     save_fault := None;
     wav_token := Ok (3, lit tok2);
     close_fault := None;
     open_fault := None;
     read_fault := fun _ => None;
     unlink_fault := fun _ => None |}.

Definition ENOSPC : Exn :=
  mkExn (lit "OSError") (lit "[Errno 28] No space left on device").

Definition EMFILE : Exn :=
  mkExn (lit "OSError") (lit "[Errno 24] Too many open files").

(** The disk fills up while the upload is written. *)
Definition disk_full_env : Env :=
  {| tempdir := lit "/tmp";
     tmp_token := Ok (lit "abc");
     save_fault := Some ENOSPC;
     wav_token := Ok (3, lit "def");
     close_fault := None;
     open_fault := None;
     read_fault := fun _ => None;
     unlink_fault := fun _ => None |}.

(** No descriptor is left for the second temp file. *)
Definition no_descriptor_env : Env :=
  {| tempdir := lit "/tmp";
     tmp_token := Ok (lit "abc");
     save_fault := None;
     wav_token := Error EMFILE;
     close_fault := None;
     open_fault := None;
     read_fault := fun _ => None;
     unlink_fault := fun _ => None |}.

(** The same request, with other outcomes for the deletions. *)
Definition with_unlink_fault (u : list N -> option Exn) (env : Env) : Env :=
  {| tempdir := tempdir env;
     tmp_token := tmp_token env;
     save_fault := save_fault env;
     wav_token := wav_token env;
     close_fault := close_fault env;
     open_fault := open_fault env;
     read_fault := read_fault env;
     unlink_fault := u |}.

(** The world a run ends in. *)
Definition final_world {A} (o : option (result A * World)) : World :=
  match o with Some (_, w) => w | None => mkWorld ∅ [] end.

Definition upload (name : string) (c : bytes) : Request :=
  mkRequest [(lit "file", mkFile (lit name) c)].

Definition empty_world : World := mkWorld ∅ [].

(** ** What the properties are stated with *)

(** The first, or the last, character is whitespace. *)
Definition leading_space (s : str) : bool :=
  match s with c :: _ => isspace c | [] => false end.

Definition trailing_space (s : str) : bool :=
  match last s with Some c => isspace c | None => false end.

(** Two adjacent space characters somewhere in the string. *)
Definition is_sp (c : char) : bool := (c =? 32)%N.

Fixpoint double_space (s : str) : bool :=
  match s with
  | [] => false
  | a :: t =>
      match t with
      | b :: _ => is_sp a && is_sp b
      | [] => false
      end || double_space t
  end.

(** A fragment as a recogniser writes it: words with one space between them,
    so no space at either end and no two spaces in a row. *)
Definition tidy (s : str) : bool :=
  negb (match s with c :: _ => is_sp c | [] => false end)
  && negb (match last s with Some c => is_sp c | None => false end)
  && negb (double_space s).

(** The text the specification describes: the fragments that are not empty
    after trimming, joined with one space, then trimmed. *)
Definition spec_text (frags : list str) : str :=
  strip (sep_join (lit " ")
           (List.filter (fun s => negb (bool_decide (strip s = []))) frags)).

(** The text the handler computes from fragment strings (line 78). *)
Definition code_text (frags : list str) : str :=
  strip (sep_join (lit " ")
           (List.filter (fun s => negb (bool_decide (s = []))) frags)).

(** The events a run added to the trace, and the commands it launched. *)
Definition emitted (w w' : World) : list Event :=
  drop (length (trace w)) (trace w').

Definition launched (evs : list Event) : list (list str) :=
  omap (fun ev => match ev with EvRun cmd => Some cmd | _ => None end) evs.

Definition unlinked (evs : list Event) : list str :=
  omap (fun ev => match ev with EvUnlink p => Some p | _ => None end) evs.

(** The events of recognition: reading the wave file and driving the
    recogniser. *)
Definition recog_event (ev : Event) : Prop :=
  match ev with
  | EvWaveOpen _ | EvKaldiRecognizer _ | EvSetWords _ | EvReadframes _
  | EvAcceptWaveform _ | EvResult | EvFinalResult => True
  | _ => False
  end.

(** The response of the [try] statement, from the outcome of its body: the
    body's own response, or the one the [except] clause builds. *)
Definition response_of (r : result Response) : Response :=
  match r with
  | Ok resp => resp
  | Error e => mkResponse (jsonify [(lit "error", PStr (exn_str e))]) 500
  end.

(** The outcome of a run, without the final world. *)
Definition outcome {A} (o : option (result A * World)) : option (result A) :=
  fst <$> o.

(** The trace and the files a run ends with. *)
Definition final_trace {A} (o : option (result A * World)) : list Event :=
  match o with Some (_, w) => trace w | None => [] end.

Definition final_file {A} (o : option (result A * World)) (p : list N)
  : option (list Byte.byte) :=
  match o with Some (_, w) => fs w !! p | None => None end.

(** A recognition result without speech: its [text] field is empty or
    absent. *)
Definition silent (C : Collab) (s : str) : Prop :=
  forall d, json_loads C s = Ok (PDict d) ->
    assoc_get (lit "text") d = None
    \/ assoc_get (lit "text") d = Some (PStr []).

(** The transcoder as a function of what it is given to read: the exit
    status and the file it leaves at the output path depend on the content of
    the input file and on the extension of its name, not on the rest of the
    two path names. *)
Definition transcoder_reads_content_and_extension (C : Collab) : Prop :=
  exists tr : str -> list Byte.byte -> Z * option (list Byte.byte),
    forall i o rate m c proc m',
      m !! i = Some c -> i <> o ->
      run C [ lit "ffmpeg"; lit "-y"; lit "-i"; i;
              lit "-ar"; rate; lit "-ac"; lit "1";
              lit "-vn"; lit "-f"; lit "wav"; o ] m = Ok (proc, m') ->
      returncode proc = (tr (splitext i).2 c).1
      /\ m' !! o = (tr (splitext i).2 c).2.

(** A computation always ends (it never runs out of fuel). *)
Definition total {A} (m : M A) : Prop := forall w, is_Some (m w).

(** A computation only adds events that satisfy [Q]. *)
Definition emits {A} (Q : Event -> Prop) (m : M A) : Prop :=
  forall w r w', m w = Some (r, w') ->
    exists evs, trace w' = trace w ++ evs /\ Forall Q evs.

(** ** The start of the process (lines 27 to 32) *)

(** [posixpath.dirname]. *)
Fixpoint lstrip_sep (s : str) : str :=
  match s with
  | [] => []
  | c :: s' => if (c =? sep_char)%N then lstrip_sep s' else s
  end.

(** [s.rstrip('/')]. *)
Definition rstrip_sep (s : str) : str := reverse (lstrip_sep (reverse s)).

Definition dirname (p : str) : str :=
  let i := rfind sep_char p + 1 in
  let head := take (Z.to_nat i) p in
  if negb (bool_decide (head = []))
     && negb (bool_decide (head = replicate (length head) sep_char))
  then rstrip_sep head
  else head.

(** [posixpath.join(a, b)]. *)
Definition path_join (a b : str) : str :=
  if bool_decide (head b = Some sep_char) then b
  else if bool_decide (a = []) || bool_decide (last a = Some sep_char)
       then a ++ b
       else a ++ [sep_char] ++ b.

(** What the start of the process depends on: the environment variables,
    [__file__], and which paths exist. *)
Record Process : Type := mkProcess {
  environ : gmap (list N) (list N);
  script : str;
  path_exists : list N -> bool
}.

(** Line 27. *)
Definition MODEL_PATH (P : Process) : str :=
  default (path_join (dirname (script P)) (lit "model"))
          (environ P !! lit "VOSK_MODEL_PATH").

(** What lines 28 to 32 come to: [SystemExit] with a message, or the model
    is loaded from a path. *)
Inductive Startup : Type :=
  | SystemExit (msg : str)
  | LoadModel (path : str).

Definition startup (P : Process) : Startup :=
  if negb (path_exists P (MODEL_PATH P)) then
    SystemExit (lit "VOSK model not found at " ++ MODEL_PATH P
                ++ lit ". Set VOSK_MODEL_PATH or place model in server/model")
  else LoadModel (MODEL_PATH P).

(** ** More of what the properties are stated with *)

(** The chunks given to the recogniser, the frame counts asked of the wave
    reader, and the number of results asked of the recogniser. *)
Definition accepted (evs : list Event) : list (list Byte.byte) :=
  omap (fun ev => match ev with EvAcceptWaveform d => Some d | _ => None end)
       evs.

Definition frames_asked (evs : list Event) : list Z :=
  omap (fun ev => match ev with EvReadframes n => Some n | _ => None end) evs.

Definition results_asked (evs : list Event) : nat :=
  length (omap (fun ev => match ev with EvResult => Some tt | _ => None end)
               evs).

(** The events of the loop. *)
Definition loop_event (ev : Event) : Prop :=
  match ev with
  | EvReadframes _ | EvAcceptWaveform _ | EvResult => True
  | _ => False
  end.

(** The strings among the values of a list. *)
Definition strs_of (l : list pyval) : list str :=
  omap (fun v => match v with PStr s => Some s | _ => None end) l.

Definition is_str (v : pyval) : bool :=
  match v with PStr _ => true | _ => false end.

(** A suffix that keeps a temp file where [tempfile] puts it: a dot, then
    no path separator. *)
Definition safe_suffix (s : str) : Prop :=
  exists rest, s = extsep_char :: rest /\ (sep_char ∉ rest).

(** A transcoder that writes no file but its output. *)
Definition transcoder_writes_output_only (C : Collab) : Prop :=
  forall i o rate m proc m',
    run C [ lit "ffmpeg"; lit "-y"; lit "-i"; i;
            lit "-ar"; rate; lit "-ac"; lit "1";
            lit "-vn"; lit "-f"; lit "wav"; o ] m = Ok (proc, m') ->
    forall p, p <> o -> m' !! p = m !! p.

(** The bytes of one chunk: 4000 frames. *)
Definition chunk_size (h : Wave) : nat := (Z.to_nat 4000 * framesize h)%nat.
Arguments chunk_size : simpl never.

(** A chunk as the loop gives it to the recogniser: not empty, and of 4000
    frames at most. *)
Definition chunk_ok (h : Wave) (d : list Byte.byte) : Prop :=
  d <> [] /\ (length d <= chunk_size h)%nat.

(** What the loop has done when it is left, with [r], after the events
    [evs]: [rest] is the data the wave reader had left when the loop began
    and [n] the number of results collected before. *)
Definition loop_post {A} (h : Wave) (rest : list Byte.byte) (n : nat)
    (evs : list Event) (r : result (A * list pyval)) : Prop :=
  Forall loop_event evs
  /\ Forall (fun k => k = 4000) (frames_asked evs)
  /\ concat (accepted evs) `prefix_of` rest
  /\ Forall (chunk_ok h) (accepted evs)
  /\ forall a results, r = Ok (a, results) ->
       length (frames_asked evs) = S (length (accepted evs))
       /\ length results = (n + results_asked evs)%nat
       /\ ((0 < framesize h)%nat -> concat (accepted evs) = rest).

(** The events of lines 55 to 60 for the upload [f]. *)
Definition setup_event (f : FileStorage) (ev : Event) : Prop :=
  match ev with
  | EvNamedTemporaryFile s =>
      s = str_or (splitext (filename f)).2 (lit ".tmp")
  | EvMkstemp s => s = lit ".wav"
  | EvSave _ | EvClose _ => True
  | _ => False
  end.

(** The response of line 52. *)
Definition bad_request : Response :=
  mkResponse (jsonify [(lit "error", PStr (lit "file field is required"))])
             400.

(** A recogniser whose results all carry the value [v] as their text. *)
Definition literal_engine (v : pyval) : Collab :=
  {| Rec := unit;
     run := copy_transcoder;
     utf8_decode := ascii_decode;
     wave_parse := fun b => Ok (mkWave 16000 2 b);
     json_loads := fun _ => Ok (PDict [(lit "text", v)]);
     KaldiRecognizer := fun _ => Ok tt;
     SetWords := fun r _ => Ok r;
     AcceptWaveform := fun r _ => Ok (true, r);
     Result := fun r => Ok (lit "{}", r);
     FinalResult := fun r => Ok (lit "{}", r) |}.

(** An installation without [ffmpeg]. *)
Definition no_ffmpeg : Collab :=
  {| Rec := unit;
     run := fun _ _ => Error FileNotFoundError;
     utf8_decode := ascii_decode;
     wave_parse := fun b => Ok (mkWave 16000 2 b);
     json_loads := fun _ => Ok (PDict []);
     KaldiRecognizer := fun _ => Ok tt;
     SetWords := fun r _ => Ok r;
     AcceptWaveform := fun r _ => Ok (true, r);
     Result := fun r => Ok (lit "{}", r);
     FinalResult := fun r => Ok (lit "{}", r) |}.

(** A computation leaves the files on disk as they are. *)
Definition keeps_fs {A} (m : M A) : Prop :=
  forall w r w', m w = Some (r, w') -> fs w' = fs w.

(** ** Strings *)

Section Strings.

Lemma lstrip_leading s : leading_space (lstrip s) = false.
Proof.
  induction s as [|c s IH]; simpl; [done|].
  destruct (isspace c) eqn:E; [done|]. by simpl.
Qed.

Lemma lstrip_snoc s c :
  isspace c = false -> lstrip (s ++ [c]) = lstrip s ++ [c].
Proof.
  intros Hc. induction s as [|x s IH]; simpl.
  - by rewrite Hc.
  - by destruct (isspace x).
Qed.

Lemma lstrip_suffix s : lstrip s `suffix_of` s.
Proof.
  induction s as [|c s IH]; simpl; [done|].
  destruct (isspace c); [by apply suffix_cons_r | done].
Qed.

Lemma rstrip_prefix s : rstrip s `prefix_of` s.
Proof.
  unfold rstrip. destruct (lstrip_suffix (reverse s)) as [k Hk].
  exists (reverse k).
  rewrite <- reverse_app, <- Hk. by rewrite reverse_involutive.
Qed.

Lemma rstrip_trailing s : trailing_space (rstrip s) = false.
Proof.
  unfold trailing_space, rstrip.
  pose proof (lstrip_leading (reverse s)) as H.
  destruct (lstrip (reverse s)) as [|c t]; [done|].
  rewrite reverse_cons, last_snoc. exact H.
Qed.

Lemma rstrip_leading s :
  leading_space s = false -> leading_space (rstrip s) = false.
Proof.
  destruct s as [|c s]; [done|]. simpl. intros Hc.
  unfold rstrip. rewrite reverse_cons, lstrip_snoc by done.
  by rewrite reverse_snoc.
Qed.

Lemma strip_leading s : leading_space (strip s) = false.
Proof. apply rstrip_leading, lstrip_leading. Qed.

Lemma strip_trailing s : trailing_space (strip s) = false.
Proof. apply rstrip_trailing. Qed.

Lemma double_space_app a b :
  double_space (a ++ b)
  = double_space a || double_space b
    || (match last a with Some c => is_sp c | None => false end
        && match b with c :: _ => is_sp c | [] => false end).
Proof.
  induction a as [|x a IH]; simpl.
  - by rewrite orb_false_r.
  - destruct a as [|y a].
    + simpl. destruct b as [|z b]; simpl.
      * by rewrite andb_false_r.
      * by rewrite orb_comm.
    + rewrite IH. rewrite last_cons_cons.
      change (double_space (x :: y :: a))
        with (is_sp x && is_sp y || double_space (y :: a)).
      change ((x :: y :: a) ++ b) with (x :: y :: (a ++ b)).
      cbv iota beta. by rewrite !orb_assoc.
Qed.

Lemma double_space_app_inv a b :
  double_space (a ++ b) = false ->
  double_space a = false /\ double_space b = false.
Proof.
  rewrite double_space_app. intros H.
  apply orb_false_elim in H as [H _].
  by apply orb_false_elim in H.
Qed.

Lemma strip_double_space s :
  double_space s = false -> double_space (strip s) = false.
Proof.
  intros H. unfold strip.
  destruct (lstrip_suffix s) as [k Hk]. rewrite Hk in H.
  apply double_space_app_inv in H as [_ H].
  destruct (rstrip_prefix (lstrip s)) as [k' Hk']. rewrite Hk' in H.
  by apply double_space_app_inv in H as [H _].
Qed.

End Strings.

Section Joining.

Lemma sep_join_cons sep x y l :
  sep_join sep (x :: y :: l) = x ++ sep ++ sep_join sep (y :: l).
Proof. reflexivity. Qed.

(** Joining tidy, non-empty fragments with one space gives a text that
    starts with no space and has no two spaces in a row. *)
Lemma sep_join_tidy (l : list str) :
  Forall (fun s => s <> [] /\ tidy s = true) l ->
  double_space (sep_join (lit " ") l) = false
  /\ match sep_join (lit " ") l with c :: _ => is_sp c | [] => false end
     = false.
Proof.
  induction l as [|x l IH]; intros Hl; [done|].
  apply Forall_cons in Hl as [[Hx Ht] Hl].
  unfold tidy in Ht.
  apply andb_true_iff in Ht as [Ht Hd].
  apply andb_true_iff in Ht as [Hh Hla].
  apply negb_true_iff in Hd, Hh, Hla.
  destruct l as [|y l]; [by simpl|].
  rewrite sep_join_cons. destruct (IH Hl) as [IHd IHh].
  set (j := sep_join (lit " ") (y :: l)) in *. clearbody j.
  change (lit " ") with [32%N]. split.
  - rewrite double_space_app, Hd, Hla.
    destruct j as [|c j]; [done|].
    simpl in *. by rewrite IHd, IHh.
  - destruct x as [|c x]; [done|]. exact Hh.
Qed.

Lemma code_text_no_double_space (frags : list str) :
  Forall (fun s => tidy s = true) frags ->
  double_space (code_text frags) = false.
Proof.
  intros H. unfold code_text. apply strip_double_space, sep_join_tidy.
  induction H as [|s l Hs Hl IH]; simpl; [done|].
  destruct (bool_decide (s = [])) eqn:E; simpl; [done|].
  apply bool_decide_eq_false in E. by constructor.
Qed.

(** The handler drops the empty fragments; the specification drops those
    that are empty after trimming.  The two agree when no fragment is made
    of whitespace only. *)
Lemma code_text_spec_text (frags : list str) :
  Forall (fun s => s <> [] -> strip s <> []) frags ->
  code_text frags = spec_text frags.
Proof.
  intros H. unfold code_text, spec_text. do 2 f_equal.
  induction H as [|s l Hs Hl IH]; simpl; [done|].
  rewrite IH.
  destruct (bool_decide (s = [])) eqn:E1.
  - apply bool_decide_eq_true in E1. subst s. by simpl.
  - apply bool_decide_eq_false in E1.
    by rewrite (bool_decide_eq_false_2 _ (Hs E1)).
Qed.

(** On fragment strings, the filter and the join of line 78. *)
Lemma as_strs_PStr (frags : list str) :
  as_strs (List.filter truthy (List.map PStr frags))
  = Some (List.filter (fun s => negb (bool_decide (s = []))) frags).
Proof.
  induction frags as [|s l IH]; simpl; [done|].
  destruct (bool_decide (s = [])); simpl; [done|]. by rewrite IH.
Qed.

End Joining.

(** ** Running computations *)

Section Exec.
Context {A B : Type}.

Lemma bind_Some_inv (m : M A) (k : A -> M B) w r w' :
  bind m k w = Some (r, w') ->
  (exists a w1, m w = Some (Ok a, w1) /\ k a w1 = Some (r, w'))
  \/ (exists e, m w = Some (Error e, w') /\ r = Error e).
Proof.
  unfold bind. destruct (m w) as [[[a|e] w1]|]; intros H; [| |done].
  - left. eauto.
  - right. injection H as <- <-. eauto.
Qed.

Lemma bind_Ok_inv (m : M A) (k : A -> M B) w b w' :
  bind m k w = Some (Ok b, w') ->
  exists a w1, m w = Some (Ok a, w1) /\ k a w1 = Some (Ok b, w').
Proof.
  intros H. apply bind_Some_inv in H as [H|[e [_ H]]]; [done|discriminate].
Qed.

Lemma bind_Ok (m : M A) (k : A -> M B) w a w1 :
  m w = Some (Ok a, w1) -> bind m k w = k a w1.
Proof. unfold bind. by intros ->. Qed.

Lemma bind_Error (m : M A) (k : A -> M B) w e w1 :
  m w = Some (Error e, w1) -> bind m k w = Some (Error e, w1).
Proof. unfold bind. by intros ->. Qed.

Lemma total_bind (m : M A) (k : A -> M B) :
  total m -> (forall a, total (k a)) -> total (bind m k).
Proof.
  intros Hm Hk w. unfold bind.
  destruct (Hm w) as [[[a|e] w1] ->]; [apply Hk | done].
Qed.

Lemma emits_bind Q (m : M A) (k : A -> M B) :
  emits Q m -> (forall a, emits Q (k a)) -> emits Q (bind m k).
Proof.
  intros Hm Hk w r w' H.
  apply bind_Some_inv in H as [(a & w1 & H1 & H2)|(e & H1 & _)].
  - destruct (Hm _ _ _ H1) as (evs1 & E1 & F1).
    destruct (Hk _ _ _ _ H2) as (evs2 & E2 & F2).
    exists (evs1 ++ evs2). split.
    + by rewrite E2, E1, app_assoc.
    + by apply Forall_app.
  - eauto.
Qed.

End Exec.

Section ExecBasics.
Context {A : Type}.

Lemma total_ret (a : A) : total (ret a).
Proof. intros w. by eexists. Qed.

Lemma total_raise e : total (@raise A e).
Proof. intros w. by eexists. Qed.

Lemma total_lift (r : result A) : total (lift r).
Proof. destruct r; [apply total_ret | apply total_raise]. Qed.

Lemma total_try_except (m : M A) h :
  total m -> (forall e, total (h e)) -> total (try_except m h).
Proof.
  intros Hm Hh w. unfold try_except.
  destruct (Hm w) as [[[a|e] w1] ->]; [done | apply Hh].
Qed.

Lemma total_try_finally (m : M A) fin :
  total m -> total fin -> total (try_finally m fin).
Proof.
  intros Hm Hf w. unfold try_finally.
  destruct (Hm w) as [[r w1] ->].
  destruct (Hf w1) as [[[[]|e] w2] ->]; done.
Qed.

Lemma emits_nothing Q (m : M A) :
  (forall w r w', m w = Some (r, w') -> trace w' = trace w) -> emits Q m.
Proof.
  intros H w r w' E. exists []. rewrite app_nil_r. eauto.
Qed.

Lemma emits_ret Q (a : A) : emits Q (ret a).
Proof. apply emits_nothing. by intros w r w' [= <- <-]. Qed.

Lemma emits_raise Q e : emits Q (@raise A e).
Proof. apply emits_nothing. by intros w r w' [= <- <-]. Qed.

Lemma emits_lift Q (r : result A) : emits Q (lift r).
Proof. destruct r; [apply emits_ret | apply emits_raise]. Qed.

Lemma emits_try_except Q (m : M A) h :
  emits Q m -> (forall e, emits Q (h e)) -> emits Q (try_except m h).
Proof.
  intros Hm Hh w r w' H. unfold try_except in H.
  destruct (m w) as [[[a|e] w1]|] eqn:E; [| | done].
  { injection H as <- <-. by apply (Hm _ _ _ E). }
  destruct (Hm _ _ _ E) as (evs1 & E1 & F1).
  destruct (Hh _ _ _ _ H) as (evs2 & E2 & F2).
  exists (evs1 ++ evs2). split; [by rewrite E2, E1, app_assoc|].
  by apply Forall_app.
Qed.

End ExecBasics.

Lemma total_fault o : total (fault o).
Proof. destruct o; [apply total_raise | apply total_ret]. Qed.

Lemma total_emit ev : total (emit ev).
Proof. intros w. by eexists. Qed.

Lemma total_get_fs : total get_fs.
Proof. intros w. by eexists. Qed.

Lemma total_put_fs m : total (put_fs m).
Proof. intros w. by eexists. Qed.

Lemma emits_fault Q o : emits Q (fault o).
Proof. destruct o; [apply emits_raise | apply emits_ret]. Qed.

Lemma emits_emit (Q : Event -> Prop) ev : Q ev -> emits Q (emit ev).
Proof.
  intros HQ w r w' [= <- <-]. exists [ev]. split; [done|]. by constructor.
Qed.

Lemma emits_get_fs Q : emits Q get_fs.
Proof. apply emits_nothing. by intros w r w' [= <- <-]. Qed.

Lemma emits_put_fs Q m : emits Q (put_fs m).
Proof. apply emits_nothing. by intros w r w' [= <- <-]. Qed.

(** The two predicates are proved by following the structure of the
    computation. *)
Ltac follow :=
  repeat first
    [ progress intros
    | apply total_bind | apply total_ret | apply total_raise
    | apply total_lift | apply total_fault | apply total_emit
    | apply total_get_fs | apply total_put_fs
    | apply total_try_except | apply total_try_finally
    | apply emits_bind | apply emits_ret | apply emits_raise
    | apply emits_lift | apply emits_fault
    | apply emits_get_fs | apply emits_put_fs | apply emits_try_except
    | (apply emits_emit; exact I)
    | match goal with
      | |- total (match ?x with _ => _ end) => destruct x
      | |- emits _ (match ?x with _ => _ end) => destruct x
      end ].

Lemma total_bind_post {A B} (P : A -> Prop) (m : M A) (k : A -> M B) :
  total m ->
  (forall w a w', m w = Some (Ok a, w') -> P a) ->
  (forall a, P a -> total (k a)) ->
  total (bind m k).
Proof.
  intros Hm HP Hk w. unfold bind.
  destruct (Hm w) as [[[a|e] w1] E]; rewrite E; [|done].
  eapply Hk, HP, E.
Qed.

(** ** The calls of the handler: they end, and what they add to the trace *)

Section Calls.
Context (C : Collab) (env : Env).

Lemma readframes_Ok wf n w d wf' w' :
  readframes env wf n w = Some (Ok (d, wf'), w') ->
  let k := (Z.to_nat n * framesize (wr_header wf))%nat in
  d = take k (wr_rest wf)
  /\ wf' = mkWaveRead (wr_header wf) (drop k (wr_rest wf)) (S (wr_reads wf))
  /\ read_fault env (wr_reads wf) = None
  /\ w' = mkWorld (fs w) (trace w ++ [EvReadframes n]).
Proof.
  unfold readframes, bind, emit, fault, ret, raise.
  destruct (read_fault env (wr_reads wf)); [done|].
  by intros [= <- <- <-].
Qed.

Lemma total_readframes wf n : total (readframes env wf n).
Proof. unfold readframes. follow. Qed.

Lemma total_accept rec d : total (rec_AcceptWaveform C rec d).
Proof. unfold rec_AcceptWaveform. follow. Qed.

Lemma total_result rec : total (rec_Result C rec).
Proof. unfold rec_Result. follow. Qed.

Lemma read_loop_S fuel wf rec results :
  read_loop C env (S fuel) wf rec results
  = (let* '(data, wf) := readframes env wf 4000 in
     if bool_decide (length data = 0%nat) then ret (rec, results)
     else
       let* '(accepted, rec) := rec_AcceptWaveform C rec data in
       if accepted : bool then
         let* '(s, rec) := rec_Result C rec in
         let* r := lift (json_loads C s) in
         let* t := lift (py_get r (lit "text") (PStr [])) in
         read_loop C env fuel wf rec (results ++ [t])
       else read_loop C env fuel wf rec results).
Proof. reflexivity. Qed.

(** The loop ends: a turn that does not leave the loop has read at least
    one byte. *)
Lemma read_loop_total fuel wf rec results :
  (length (wr_rest wf) < fuel)%nat ->
  total (read_loop C env fuel wf rec results).
Proof.
  revert wf rec results.
  induction fuel as [|fuel IH]; intros wf rec results Hlt; [lia|].
  rewrite read_loop_S.
  apply total_bind_post with
    (P := fun x => x.1 = [] \/ (length (wr_rest x.2) < fuel)%nat).
  - apply total_readframes.
  - intros w [d wf'] w' H. apply readframes_Ok in H as (-> & -> & _).
    cbn [fst snd wr_rest].
    generalize (Z.to_nat 4000 * framesize (wr_header wf))%nat. intros k.
    destruct (wr_rest wf) as [|b rest] eqn:E.
    + left. by rewrite take_nil.
    + destruct k as [|k]; [by left|].
      right. rewrite length_drop. cbn [length] in *. lia.
  - intros [d wf'] [Hd|Hd]; cbn [fst snd] in Hd.
    + subst d. apply total_ret.
    + destruct (bool_decide (length d = 0%nat)); [apply total_ret|].
      apply total_bind; [apply total_accept|].
      intros [[] rec']; [|by apply IH].
      apply total_bind; [apply total_result|]. intros [s rec''].
      follow. by apply IH.
Qed.

Lemma emits_read_loop fuel wf rec results :
  emits recog_event (read_loop C env fuel wf rec results).
Proof.
  revert wf rec results.
  induction fuel as [|fuel IH]; intros wf rec results.
  - by intros w r w' ?.
  - rewrite read_loop_S.
    unfold readframes, rec_AcceptWaveform, rec_Result.
    follow; apply IH.
Qed.

Lemma subprocess_run_trace cmd w r w' :
  subprocess_run C cmd w = Some (r, w') ->
  trace w' = trace w ++ [EvRun cmd].
Proof.
  unfold subprocess_run, bind, emit, get_fs, lift, put_fs, ret, raise.
  simpl. destruct (run C cmd (fs w)) as [[proc m']|e]; by intros [= <- <-].
Qed.

Lemma convert_to_wav_trace i o rate w r w' :
  convert_to_wav C i o rate w = Some (r, w') ->
  trace w' = trace w ++ [EvRun (ffmpeg_cmd i o rate)].
Proof.
  unfold convert_to_wav. intros H.
  apply bind_Some_inv in H as [(proc & w1 & H1 & H2)|(e & H1 & _)];
    [|by eapply subprocess_run_trace].
  apply subprocess_run_trace in H1. rewrite <- H1.
  destruct (negb (returncode proc =? 0)).
  - unfold bind, lift, ret, raise in H2.
    destruct (utf8_decode C (stderr proc)); by injection H2 as <- <-.
  - by injection H2 as <- <-.
Qed.

Lemma total_convert_to_wav i o rate : total (convert_to_wav C i o rate).
Proof.
  unfold convert_to_wav, subprocess_run. follow.
Qed.

(** After the transcoder, recognition only reads the wave file and drives
    the recogniser. *)
Lemma recognise_trace tmp wav w r w' :
  recognise C env tmp wav w = Some (r, w') ->
  exists evs,
    trace w' = trace w ++ EvRun (ffmpeg_cmd tmp wav 16000) :: evs
    /\ Forall recog_event evs.
Proof.
  unfold recognise. intros H.
  apply bind_Some_inv in H as [(a & w1 & H1 & H2)|(e & H1 & _)].
  - apply convert_to_wav_trace in H1.
    assert (emits recog_event
      (let* wf := wave_open C env wav in
       let* rec := new_recognizer C (getframerate wf) in
       let* rec := rec_SetWords C rec true in
       let* '(rec, results) :=
         read_loop C env (S (length (wr_rest wf))) wf rec [] in
       let* '(s, rec) := rec_FinalResult C rec in
       let* final := lift (json_loads C s) in
       let* t := lift (py_get final (lit "text") (PStr [])) in
       ret (results ++ [t]))) as Hem.
    { unfold wave_open, new_recognizer, rec_SetWords, rec_FinalResult.
      follow; try apply emits_read_loop. }
    destruct (Hem _ _ _ H2) as (evs & E & F).
    exists evs. split; [|done]. rewrite E, H1. by rewrite <- app_assoc.
  - apply convert_to_wav_trace in H1. exists []. by split.
Qed.

Lemma total_recognise tmp wav : total (recognise C env tmp wav).
Proof.
  unfold recognise.
  apply total_bind; [apply total_convert_to_wav|]. intros _.
  apply total_bind; [unfold wave_open; follow|]. intros wf.
  apply total_bind; [unfold new_recognizer; follow|]. intros rec.
  apply total_bind; [unfold rec_SetWords; follow|]. intros rec'.
  apply total_bind; [apply read_loop_total; lia|]. intros [rec'' results].
  unfold rec_FinalResult. follow.
Qed.

Lemma total_try_body tmp wav : total (try_body C env tmp wav).
Proof.
  unfold try_body. apply total_bind; [apply total_recognise|]. follow.
Qed.

Lemma try_body_trace tmp wav w r w' :
  try_body C env tmp wav w = Some (r, w') ->
  exists evs,
    trace w' = trace w ++ EvRun (ffmpeg_cmd tmp wav 16000) :: evs
    /\ Forall recog_event evs.
Proof.
  unfold try_body. intros H.
  apply bind_Some_inv in H as [(a & w1 & H1 & H2)|(e & H1 & _)];
    [|by eapply recognise_trace].
  apply recognise_trace in H1.
  unfold bind, lift, ret, raise in H2.
  destruct (str_join _ _); by injection H2 as <- <-.
Qed.

End Calls.

(** ** The blocks of the handler *)

Section Blocks.
Context (C : Collab) (env : Env).

Lemma getitem_contains key d f : getitem key d = Ok f -> contains key d = true.
Proof.
  unfold getitem, contains.
  destruct (List.find _ d) as [kv|] eqn:E; [|done]. intros _.
  apply List.find_some in E as [Hin Hk].
  apply List.existsb_exists. eauto.
Qed.

Lemma contains_getitem key d :
  contains key d = true -> exists f, getitem key d = Ok f.
Proof.
  unfold getitem, contains. intros H.
  apply List.existsb_exists in H as (kv & Hin & Hk).
  destruct (List.find _ d) as [kv'|] eqn:E; [eauto|].
  by rewrite (List.find_none _ _ E _ Hin) in Hk.
Qed.

(** One deletion in the [finally] block: the call is made, and whatever
    it does the block goes on. *)
Lemma try_pass_unlink p w :
  exists w1,
    try_pass (os_unlink env p) w = Some (Ok tt, w1)
    /\ trace w1 = trace w ++ [EvUnlink p].
Proof.
  unfold try_pass, try_except, os_unlink, bind, emit, fault, get_fs,
    put_fs, ret, raise.
  destruct (unlink_fault env p); cbn [fs trace]; [by eexists|].
  destruct (fs w !! p); by eexists.
Qed.

(** The [finally] block tries both deletions, in order, and completes. *)
Lemma finally_block_run tmp wav w :
  exists w',
    finally_block env tmp wav w = Some (Ok tt, w')
    /\ trace w' = trace w ++ [EvUnlink tmp; EvUnlink wav].
Proof.
  unfold finally_block.
  destruct (try_pass_unlink tmp w) as (w1 & E1 & T1).
  destruct (try_pass_unlink wav w1) as (w2 & E2 & T2).
  exists w2. rewrite (bind_Ok _ _ _ _ _ E1), E2. split; [done|].
  by rewrite T2, T1, <- app_assoc.
Qed.

Lemma create_excl_Ok name w w1 :
  create_excl name w = Some (Ok tt, w1) ->
  fs w !! name = None /\ w1 = mkWorld (<[name := []]> (fs w)) (trace w).
Proof.
  unfold create_excl, bind, get_fs, put_fs, raise.
  destruct (fs w !! name); [done|]. by intros [= <-].
Qed.

Lemma NamedTemporaryFile_Ok sfx w name w1 :
  NamedTemporaryFile env sfx w = Some (Ok name, w1) ->
  exists tok,
    tmp_token env = Ok tok /\ name = temp_name env tok sfx
    /\ fs w !! name = None
    /\ w1 = mkWorld (<[name := []]> (fs w))
              (trace w ++ [EvNamedTemporaryFile sfx]).
Proof.
  unfold NamedTemporaryFile. intros H.
  apply bind_Ok_inv in H as ([] & w2 & [= <-] & H).
  apply bind_Ok_inv in H as (tok & w3 & H1 & H).
  destruct (tmp_token env) as [tok0|]; [|done]. injection H1 as -> <-.
  apply bind_Ok_inv in H as ([] & w4 & H2 & [= <- <-]).
  apply create_excl_Ok in H2 as (Hnew & ->). by exists tok.
Qed.

Lemma save_Ok f dst w w1 :
  save env f dst w = Some (Ok tt, w1) ->
  save_fault env = None
  /\ w1 = mkWorld (<[dst := content f]> (fs w)) (trace w ++ [EvSave dst]).
Proof.
  unfold save, bind, emit, fault, get_fs, put_fs, ret, raise.
  destruct (save_fault env); [done|]. by intros [= <-].
Qed.

Lemma mkstemp_Ok sfx w fd name w1 :
  mkstemp env sfx w = Some (Ok (fd, name), w1) ->
  exists tok,
    wav_token env = Ok (fd, tok) /\ name = temp_name env tok sfx
    /\ fs w !! name = None
    /\ w1 = mkWorld (<[name := []]> (fs w)) (trace w ++ [EvMkstemp sfx]).
Proof.
  unfold mkstemp. intros H.
  apply bind_Ok_inv in H as ([] & w2 & [= <-] & H).
  apply bind_Ok_inv in H as ([fd' tok] & w3 & H1 & H).
  destruct (wav_token env) as [p|]; [|done]. injection H1 as -> <-.
  apply bind_Ok_inv in H as ([] & w4 & H2 & [= <- <- <-]).
  apply create_excl_Ok in H2 as (Hnew & ->). by exists tok.
Qed.

Lemma os_close_Ok fd w w1 :
  os_close env fd w = Some (Ok tt, w1) ->
  close_fault env = None
  /\ w1 = mkWorld (fs w) (trace w ++ [EvClose fd]).
Proof.
  unfold os_close, bind, emit, fault, ret, raise.
  destruct (close_fault env); [done|]. by intros [= <-].
Qed.

(** What it means for lines 55 to 60 to succeed. *)
Lemma temp_files_Ok f w tmp wav w0 :
  temp_files env f w = Some (Ok (tmp, wav), w0) ->
  let sfx := str_or (splitext (filename f)).2 (lit ".tmp") in
  exists tok fd tok',
    tmp_token env = Ok tok /\ wav_token env = Ok (fd, tok')
    /\ tmp = temp_name env tok sfx
    /\ wav = temp_name env tok' (lit ".wav")
    /\ tmp <> wav
    /\ fs w0 = <[wav := []]> (<[tmp := content f]> (<[tmp := []]> (fs w)))
    /\ trace w0 = trace w ++ [EvNamedTemporaryFile sfx; EvSave tmp;
                              EvMkstemp (lit ".wav"); EvClose fd].
Proof.
  intros H sfx. unfold temp_files, persist_upload in H. fold sfx in H.
  apply bind_Ok_inv in H as (tmp' & w1 & H1 & H).
  apply bind_Ok_inv in H1 as (name & w2 & H1 & H2).
  apply NamedTemporaryFile_Ok in H1 as (tok & Htok & -> & Hnew & ->).
  apply bind_Ok_inv in H2 as ([] & w3 & H2 & [= <- <-]).
  apply save_Ok in H2 as (_ & ->).
  apply bind_Ok_inv in H as ([fd wav'] & w4 & H3 & H).
  apply mkstemp_Ok in H3 as (tok' & Htok' & -> & Hnew' & ->).
  apply bind_Ok_inv in H as ([] & w5 & H4 & [= <- <- <-]).
  apply os_close_Ok in H4 as (_ & ->).
  cbn [fs trace] in *.
  exists tok, fd, tok'. repeat split; try done.
  - intros Heq. rewrite <- Heq in Hnew'.
    by rewrite lookup_insert_eq in Hnew'.
  - by rewrite <- !app_assoc.
Qed.

Lemma total_temp_files f : total (temp_files env f).
Proof.
  unfold temp_files, persist_upload, NamedTemporaryFile, save, mkstemp,
    os_close, create_excl.
  follow.
Qed.

Lemma total_finally_block tmp wav : total (finally_block env tmp wav).
Proof.
  intros w. destruct (finally_block_run tmp wav w) as (w' & -> & _).
  by eexists.
Qed.

(** The handler always ends: with a response, or with an exception that
    leaves it. *)
Lemma transcribe_total request : total (transcribe C env request).
Proof.
  unfold transcribe. destruct (negb _); [apply total_ret|].
  apply total_bind; [apply total_lift|]. intros f.
  apply total_bind; [apply total_temp_files|]. intros [tmp wav].
  apply total_try_finally; [|apply total_finally_block].
  apply total_try_except; [apply total_try_body|].
  intros e. apply total_ret.
Qed.

End Blocks.

(** ** The handler, from the outcome of the [try] body *)

Section Response.
Context (C : Collab) (env : Env).

Lemma try_except_response tmp wav w r w1 :
  try_body C env tmp wav w = Some (r, w1) ->
  try_except (try_body C env tmp wav) except_handler w
  = Some (Ok (response_of r), w1).
Proof. unfold try_except. intros ->. by destruct r. Qed.

(** Once both temp files exist: the response is that of the [try]
    statement, and the two deletions are the last calls of the handler. *)
Lemma transcribe_from_try_body request f w tmp wav w0 r w1 :
  getitem (lit "file") (files request) = Ok f ->
  temp_files env f w = Some (Ok (tmp, wav), w0) ->
  try_body C env tmp wav w0 = Some (r, w1) ->
  exists w2,
    transcribe C env request w = Some (Ok (response_of r), w2)
    /\ trace w2 = trace w1 ++ [EvUnlink tmp; EvUnlink wav].
Proof.
  intros Hf Ht Hb.
  destruct (finally_block_run env tmp wav w1) as (w2 & E2 & T2).
  exists w2. split; [|done].
  unfold transcribe. rewrite (getitem_contains _ _ _ Hf). cbn [negb].
  rewrite Hf. unfold lift at 1.
  rewrite (bind_Ok _ _ w f w) by done.
  rewrite (bind_Ok _ _ _ _ _ Ht).
  unfold try_finally.
  by rewrite (try_except_response _ _ _ _ _ Hb), E2.
Qed.

(** The whole trace of a request whose two temp files were created. *)
Lemma transcribe_trace request f w tmp wav w0 :
  getitem (lit "file") (files request) = Ok f ->
  temp_files env f w = Some (Ok (tmp, wav), w0) ->
  exists r w1 w2 fd evs,
    try_body C env tmp wav w0 = Some (r, w1)
    /\ transcribe C env request w = Some (Ok (response_of r), w2)
    /\ Forall recog_event evs
    /\ emitted w w2
       = [EvNamedTemporaryFile
            (str_or (splitext (filename f)).2 (lit ".tmp"));
          EvSave tmp; EvMkstemp (lit ".wav"); EvClose fd]
         ++ EvRun (ffmpeg_cmd tmp wav 16000) :: evs
         ++ [EvUnlink tmp; EvUnlink wav].
Proof.
  intros Hf Ht.
  destruct (total_try_body C env tmp wav w0) as [[r w1] Hb].
  destruct (transcribe_from_try_body _ _ _ _ _ _ _ _ Hf Ht Hb)
    as (w2 & E & T).
  destruct (try_body_trace _ _ _ _ _ _ _ Hb) as (evs & T1 & F).
  destruct (temp_files_Ok _ _ _ _ _ _ Ht)
    as (tok & fd & tok' & _ & _ & _ & _ & _ & _ & T0).
  exists r, w1, w2, fd, evs. repeat split; try done.
  unfold emitted. rewrite T, T1, T0, <- !app_assoc.
  by rewrite drop_app_length.
Qed.

Lemma launched_app evs1 evs2 :
  launched (evs1 ++ evs2) = launched evs1 ++ launched evs2.
Proof. apply omap_app. Qed.

Lemma launched_recog evs : Forall recog_event evs -> launched evs = [].
Proof.
  induction 1 as [|ev evs Hev _ IH]; [done|].
  destruct ev; try done; exact IH.
Qed.

End Response.

(** ** The properties of the handler *)

Lemma splitext_app p : (splitext p).1 ++ (splitext p).2 = p.
Proof.
  unfold splitext. destruct (_ && _); cbn [fst snd].
  - apply take_drop.
  - apply app_nil_r.
Qed.

Lemma temp_name_suffix env tok sfx : sfx `suffix_of` temp_name env tok sfx.
Proof.
  unfold temp_name. exists (tempdir env ++ lit "/tmp" ++ tok).
  by rewrite <- !app_assoc.
Qed.

Lemma try_body_Ok C env tmp wav w resp w1 :
  try_body C env tmp wav w = Some (Ok resp, w1) ->
  exists results joined,
    recognise C env tmp wav w = Some (Ok results, w1)
    /\ str_join (lit " ") (List.filter truthy results) = Ok joined
    /\ resp = mkResponse (jsonify [(lit "text", PStr (strip joined))]) 200.
Proof.
  unfold try_body. intros H.
  apply bind_Ok_inv in H as (results & w2 & H1 & H).
  apply bind_Ok_inv in H as (joined & w3 & H2 & H).
  destruct (str_join _ _) as [j|] eqn:E; [|done].
  injection H2 as -> <-. injection H as <- <-. eauto.
Qed.

Lemma response_of_status r :
  (forall resp, r = Ok resp -> status resp = 200) ->
  status (response_of r) = 200 \/ status (response_of r) = 500.
Proof. destruct r; [left; eauto | by right]. Qed.

Lemma temp_files_first_event env f w r w0 :
  temp_files env f w = Some (r, w0) ->
  exists evs,
    trace w0 = trace w
      ++ EvNamedTemporaryFile (str_or (splitext (filename f)).2 (lit ".tmp"))
      :: evs.
Proof.
  unfold temp_files, persist_upload, NamedTemporaryFile.
  set (sfx := str_or _ _). intros H.
  assert (emits (fun _ => True)
    (let* tmp_path :=
       (let* tmp :=
          (let* token := lift (tmp_token env) in
           create_excl (temp_name env token sfx);;
           ret (temp_name env token sfx)) in
        save env f tmp;; ret tmp) in
     let* '(wav_fd, wav_path) := mkstemp env (lit ".wav") in
     os_close env wav_fd;; ret (tmp_path, wav_path))) as Hem.
  { unfold create_excl, save, mkstemp, os_close, create_excl. follow. }
  unfold bind at 1 2 3 in H. unfold emit in H.
  destruct (Hem (mkWorld (fs w) (trace w ++ [EvNamedTemporaryFile sfx])) r w0)
    as (evs & E & _).
  - revert H. unfold bind. cbn beta iota.
    repeat (case_match; simplify_eq; try done).
  - exists evs. rewrite E. cbn [trace]. by rewrite <- app_assoc.
Qed.

(** C3.  A request whose multipart body has no [file] field is answered with
    status 400 and the body [{"error": "file field is required"}], and the
    handler does nothing else: the world it returns is the world it was
    given, so no temp file was created, no subprocess was launched and no
    recogniser was constructed. *)
Theorem missing_file_is_bad_request C env request w :
  contains (lit "file") (files request) = false ->
  transcribe C env request w
  = Some (Ok (mkResponse
                (jsonify [(lit "error", PStr (lit "file field is required"))])
                400), w).
Proof. intros H. unfold transcribe. by rewrite H. Qed.

Lemma missing_file_is_bad_request_witness :
  contains (lit "file") (files (mkRequest [])) = false
  /\ transcribe (scripted []) (quiet_env "abc" "def") (mkRequest [])
       empty_world
     = Some (Ok (mkResponse
                   (jsonify
                      [(lit "error", PStr (lit "file field is required"))])
                   400), empty_world).
Proof.
  split; [reflexivity|].
  apply (missing_file_is_bad_request (scripted []) (quiet_env "abc" "def")
           (mkRequest []) empty_world).
  reflexivity.
Defined.

(** C9.  The temp file that receives the upload is named after the
    extension of the declared filename: that extension is the tail of the
    filename that [os.path.splitext] splits off; when it is not empty the
    temp name ends with it, and when the filename has none the temp name ends
    with [.tmp]. *)
Theorem temp_name_keeps_extension env f w tmp w1 :
  persist_upload env f w = Some (Ok tmp, w1) ->
  let ext := (splitext (filename f)).2 in
  ext `suffix_of` filename f
  /\ (ext <> [] -> ext `suffix_of` tmp)
  /\ (ext = [] -> lit ".tmp" `suffix_of` tmp).
Proof.
  intros H ext. unfold persist_upload in H.
  apply bind_Ok_inv in H as (name & w2 & H1 & H2).
  apply NamedTemporaryFile_Ok in H1 as (tok & _ & -> & _ & _).
  apply bind_Ok_inv in H2 as ([] & w3 & _ & [= <- _]).
  fold ext. split; [|split].
  - exists (splitext (filename f)).1. symmetry. apply splitext_app.
  - intros Hne. unfold str_or. rewrite bool_decide_eq_false_2 by done.
    apply temp_name_suffix.
  - intros ->. apply temp_name_suffix.
Qed.

Lemma temp_name_keeps_extension_witness :
  persist_upload (quiet_env "abc" "def") (mkFile (lit "clip.webm") [Byte.x52])
    empty_world
  = Some (Ok (lit "/tmp/tmpabc.webm"),
          final_world (persist_upload (quiet_env "abc" "def")
                         (mkFile (lit "clip.webm") [Byte.x52]) empty_world))
  /\ (splitext (lit "clip.webm")).2 = lit ".webm"
  /\ lit ".webm" `suffix_of` lit "/tmp/tmpabc.webm".
Proof.
  split; [vm_compute; reflexivity|]. split; [vm_compute; reflexivity|].
  refine (proj1 (proj2 (temp_name_keeps_extension (quiet_env "abc" "def")
           (mkFile (lit "clip.webm") [Byte.x52]) empty_world
           (lit "/tmp/tmpabc.webm") _ _)) _).
  - vm_compute; reflexivity.
  - vm_compute. discriminate.
Defined.

Lemma unlinked_app evs1 evs2 :
  unlinked (evs1 ++ evs2) = unlinked evs1 ++ unlinked evs2.
Proof. apply omap_app. Qed.

Lemma unlinked_recog evs : Forall recog_event evs -> unlinked evs = [].
Proof.
  induction 1 as [|ev evs Hev _ IH]; [done|].
  destruct ev; try done; exact IH.
Qed.

Lemma subprocess_run_Ok C cmd w proc m' :
  run C cmd (fs w) = Ok (proc, m') ->
  subprocess_run C cmd w = Some (Ok proc, mkWorld m' (trace w ++ [EvRun cmd])).
Proof.
  intros H. unfold subprocess_run, bind, emit, get_fs, lift, put_fs, ret.
  cbn [fs trace]. by rewrite H.
Qed.

(** A non-zero exit status of the transcoder makes [convert_to_wav] raise:
    the [RuntimeError] whose message is the first 2000 characters of the
    decoded error stream after a fixed prefix, or the error of the codec
    when the error stream cannot be decoded. *)
Lemma convert_to_wav_fails C i o rate w proc m' :
  run C (ffmpeg_cmd i o rate) (fs w) = Ok (proc, m') ->
  returncode proc <> 0 ->
  convert_to_wav C i o rate w
  = Some (Error match utf8_decode C (stderr proc) with
                | Ok d => RuntimeError (lit "ffmpeg failed: " ++ take 2000 d)
                | Error e => e
                end,
          mkWorld m' (trace w ++ [EvRun (ffmpeg_cmd i o rate)])).
Proof.
  intros H Hrc. unfold convert_to_wav.
  rewrite (bind_Ok _ _ _ _ _ (subprocess_run_Ok _ _ _ _ _ H)).
  apply Z.eqb_neq in Hrc. rewrite Hrc. cbn [negb].
  unfold bind, lift, ret, raise. by destruct (utf8_decode C (stderr proc)).
Qed.

Lemma try_body_convert_fails C env tmp wav w e w1 :
  convert_to_wav C tmp wav 16000 w = Some (Error e, w1) ->
  try_body C env tmp wav w = Some (Error e, w1).
Proof.
  intros H. unfold try_body, recognise.
  apply bind_Error. by apply bind_Error.
Qed.

(** An exception raised while the temp files are created leaves the
    handler: neither the [except] clause nor the [finally] block is
    reached. *)
Lemma temp_files_failure_escapes C env request f w e w0 :
  getitem (lit "file") (files request) = Ok f ->
  temp_files env f w = Some (Error e, w0) ->
  transcribe C env request w = Some (Error e, w0).
Proof.
  intros Hf Ht. unfold transcribe.
  rewrite (getitem_contains _ _ _ Hf). cbn [negb].
  rewrite Hf. unfold lift at 1.
  rewrite (bind_Ok _ _ w f w) by done.
  by apply bind_Error.
Qed.

(** Inside the [try], every exception becomes a 500 response with an
    [error] string, and the two deletions are attempted whatever happened
    and whatever they do. *)
Lemma errors_in_try_are_500 C env request f w tmp wav w0 :
  getitem (lit "file") (files request) = Ok f ->
  temp_files env f w = Some (Ok (tmp, wav), w0) ->
  exists resp w',
    transcribe C env request w = Some (Ok resp, w')
    /\ (status resp = 200
        \/ status resp = 500
           /\ exists msg, body resp = jsonify [(lit "error", PStr msg)])
    /\ unlinked (emitted w w') = [tmp; wav].
Proof.
  intros Hf Ht.
  destruct (transcribe_trace C env _ _ _ _ _ _ Hf Ht)
    as (r & w1 & w2 & fd & evs & Hb & E & F & T).
  exists (response_of r), w2. split; [done|]. split.
  - destruct r as [resp|e]; [|right; eauto].
    left. by apply try_body_Ok in Hb as (? & ? & _ & _ & ->).
  - rewrite T, unlinked_app.
    change (EvRun ?c :: ?l) with ([EvRun c] ++ l).
    by rewrite !unlinked_app, (unlinked_recog _ F).
Qed.

(** X7.  What the deletions do, succeed or fail, never changes what the
    handler returns or raises. *)
Lemma unlink_faults_are_swallowed C env u request w :
  outcome (transcribe C (with_unlink_fault u env) request w)
  = outcome (transcribe C env request w).
Proof.
  unfold transcribe. destruct (negb _); [done|].
  destruct (getitem _ _) as [f|e]; [|done].
  rewrite !(bind_Ok (lift (Ok f)) _ w f w) by done.
  change (temp_files (with_unlink_fault u env) f) with (temp_files env f).
  destruct (total_temp_files env f w) as [[[[tmp wav]|e] w0] Ht].
  - rewrite !(bind_Ok _ _ _ _ _ Ht).
    change (try_body C (with_unlink_fault u env)) with (try_body C env).
    destruct (total_try_body C env tmp wav w0) as [[r w1] Hb].
    unfold try_finally. rewrite (try_except_response _ _ _ _ _ _ _ Hb).
    destruct (finally_block_run (with_unlink_fault u env) tmp wav w1)
      as (w2 & -> & _).
    by destruct (finally_block_run env tmp wav w1) as (w2' & -> & _).
  - by rewrite !(bind_Error _ _ _ _ _ Ht).
Qed.

(** C8.  A request whose two temp files were created launches the
    transcoder exactly once, with the command
    [ffmpeg -y -i <input temp path> -ar 16000 -ac 1 -vn -f wav <wav path>]
    (16000 Hz, one channel, no video, wav container).  [subprocess.run]
    returns the exit status of the process, and what the handler does next
    depends on it: after a non-zero status nothing follows but the two
    deletions. *)
Theorem transcoder_invoked_once C env request f w tmp wav w0 :
  getitem (lit "file") (files request) = Ok f ->
  temp_files env f w = Some (Ok (tmp, wav), w0) ->
  let cmd := [ lit "ffmpeg"; lit "-y"; lit "-i"; tmp;
               lit "-ar"; lit "16000"; lit "-ac"; lit "1";
               lit "-vn"; lit "-f"; lit "wav"; wav ] in
  exists resp w' before after,
    transcribe C env request w = Some (Ok resp, w')
    /\ launched (emitted w w') = [cmd]
    /\ emitted w w' = before ++ EvRun cmd :: after
    /\ launched before = [] /\ launched after = []
    /\ (forall proc m',
          run C cmd (fs w0) = Ok (proc, m') -> returncode proc <> 0 ->
          after = [EvUnlink tmp; EvUnlink wav]).
Proof.
  intros Hf Ht cmd.
  destruct (transcribe_trace C env _ _ _ _ _ _ Hf Ht)
    as (r & w1 & w2 & fd & evs & Hb & E & F & T).
  change (ffmpeg_cmd tmp wav 16000) with cmd in T.
  eexists (response_of r), w2, _, (evs ++ [EvUnlink tmp; EvUnlink wav]).
  split; [done|].
  assert (launched (evs ++ [EvUnlink tmp; EvUnlink wav]) = []) as Hafter.
  { by rewrite launched_app, (launched_recog _ F). }
  split; [|split; [exact T|split; [done|split; [done|]]]].
  - rewrite T, launched_app.
    change (launched (EvRun cmd :: ?l)) with (cmd :: launched l).
    by rewrite Hafter.
  - intros proc m' Hrun Hrc.
    pose proof (convert_to_wav_fails C tmp wav 16000 w0 proc m' Hrun Hrc) as Hc.
    apply (try_body_convert_fails C env) in Hc.
    destruct (transcribe_from_try_body C env _ _ _ _ _ _ _ _ Hf Ht Hc)
      as (w2' & E' & T2).
    rewrite E in E'. assert (w2 = w2') as <- by congruence. clear E'.
    destruct (temp_files_Ok _ _ _ _ _ _ Ht)
      as (_ & fd' & _ & _ & _ & _ & _ & _ & _ & T0).
    unfold emitted in T. rewrite T2 in T. cbn [trace] in T.
    rewrite T0, <- !app_assoc, drop_app_length in T.
    injection T as _ T.
    by apply (f_equal (fun l => length l)) in T as Hlen.
Qed.

Lemma transcoder_invoked_once_witness :
  getitem (lit "file") (files (upload "clip.webm" [Byte.x52]))
  = Ok (mkFile (lit "clip.webm") [Byte.x52])
  /\ temp_files (quiet_env "abc" "def") (mkFile (lit "clip.webm") [Byte.x52])
       empty_world
     = Some (Ok (lit "/tmp/tmpabc.webm", lit "/tmp/tmpdef.wav"),
             final_world (temp_files (quiet_env "abc" "def")
                            (mkFile (lit "clip.webm") [Byte.x52])
                            empty_world))
  /\ exists resp w',
       transcribe (scripted []) (quiet_env "abc" "def")
         (upload "clip.webm" [Byte.x52]) empty_world = Some (Ok resp, w')
       /\ launched (emitted empty_world w')
          = [[ lit "ffmpeg"; lit "-y"; lit "-i"; lit "/tmp/tmpabc.webm";
               lit "-ar"; lit "16000"; lit "-ac"; lit "1";
               lit "-vn"; lit "-f"; lit "wav"; lit "/tmp/tmpdef.wav" ]].
Proof.
  assert (getitem (lit "file") (files (upload "clip.webm" [Byte.x52]))
          = Ok (mkFile (lit "clip.webm") [Byte.x52])) as H1
    by (vm_compute; reflexivity).
  assert (temp_files (quiet_env "abc" "def")
            (mkFile (lit "clip.webm") [Byte.x52]) empty_world
          = Some (Ok (lit "/tmp/tmpabc.webm", lit "/tmp/tmpdef.wav"),
                  final_world (temp_files (quiet_env "abc" "def")
                                 (mkFile (lit "clip.webm") [Byte.x52])
                                 empty_world))) as H2
    by (vm_compute; reflexivity).
  split; [exact H1|]. split; [exact H2|].
  destruct (transcoder_invoked_once (scripted []) _ _ _ _ _ _ _ H1 H2)
    as (resp & w' & before & after & E & L & _).
  exists resp, w'. split; [exact E | exact L].
Defined.

(** When the transcoder exits with a non-zero status, [convert_to_wav]
    raises, the client gets status 500 with the text of the exception as the
    JSON [error] string, and the two temp files have their deletion
    attempted.  When the error stream decodes, the exception is the
    conversion error: [ffmpeg failed: ] followed by the first 2000 characters
    of the decoded stream, at most 2015 characters whatever the length of the
    stream.  When the error stream does not decode, the exception is the
    codec's. *)
Lemma transcoder_failure_is_500 C env request f w tmp wav w0 proc m' :
  getitem (lit "file") (files request) = Ok f ->
  temp_files env f w = Some (Ok (tmp, wav), w0) ->
  run C (ffmpeg_cmd tmp wav 16000) (fs w0) = Ok (proc, m') ->
  returncode proc <> 0 ->
  exists e w1 w',
    convert_to_wav C tmp wav 16000 w0 = Some (Error e, w1)
    /\ transcribe C env request w
       = Some (Ok (mkResponse (jsonify [(lit "error", PStr (exn_str e))]) 500),
               w')
    /\ match utf8_decode C (stderr proc) with
       | Ok d => e = RuntimeError (lit "ffmpeg failed: " ++ take 2000 d)
                 /\ (length (exn_str e) <= 15 + 2000)%nat
       | Error e' => e = e'
       end
    /\ unlinked (emitted w w') = [tmp; wav].
Proof.
  intros Hf Ht Hrun Hrc.
  pose proof (convert_to_wav_fails C tmp wav 16000 w0 proc m' Hrun Hrc) as Hc.
  pose proof (try_body_convert_fails C env _ _ _ _ _ Hc) as Hb.
  destruct (transcribe_from_try_body C env _ _ _ _ _ _ _ _ Hf Ht Hb)
    as (w2 & E & _).
  destruct (errors_in_try_are_500 C env _ _ _ _ _ _ Hf Ht)
    as (resp & w2' & E' & _ & U).
  rewrite E in E'. assert (w2 = w2') as <- by congruence. clear E'.
  eexists _, _, w2. split; [exact Hc|]. split; [exact E|]. split; [|exact U].
  destruct (utf8_decode C (stderr proc)) as [d|e]; [|done].
  split; [done|]. cbn [exn_str RuntimeError].
  rewrite length_app, length_take.
  change (length (lit "ffmpeg failed: ")) with 15%nat. lia.
Qed.

(** C5, at a failing input.  The transcoder exits with status 1 and the
    first byte of its error stream is 0xff, which is not UTF-8.  Line 46
    decodes the stream before it builds the conversion error, the decoding
    raises, and the exception that leaves [convert_to_wav] is the codec's
    [UnicodeDecodeError]: the client gets status 500 with the codec's message,
    and no message that starts with [ffmpeg failed: ]. *)
Lemma undecodable_stderr_hides_conversion_error :
  let C := garbled_ffmpeg in
  let env := quiet_env "abc" "def" in
  let request := upload "clip.webm" [Byte.x52] in
  let w0 := final_world (temp_files env (mkFile (lit "clip.webm") [Byte.x52])
                           empty_world) in
  run C (ffmpeg_cmd (lit "/tmp/tmpabc.webm") (lit "/tmp/tmpdef.wav") 16000)
    (fs w0)
  = Ok (mkProc 1 [Byte.xff; Byte.x3a; Byte.x20], fs w0)
  /\ outcome (convert_to_wav C (lit "/tmp/tmpabc.webm")
                (lit "/tmp/tmpdef.wav") 16000 w0)
     = Some (Error invalid_start_byte)
  /\ exn_class invalid_start_byte <> exn_class (RuntimeError [])
  /\ outcome (transcribe C env request empty_world)
     = Some (Ok (mkResponse
                   (jsonify
                      [(lit "error",
                        PStr (lit "'utf-8' codec can't decode byte 0xff in position 0: invalid start byte"))])
                   500))
  /\ ~ exists excerpt w',
         transcribe C env request empty_world
         = Some (Ok (mkResponse
                       (jsonify
                          [(lit "error",
                            PStr (lit "ffmpeg failed: " ++ excerpt))])
                       500), w').
Proof.
  intros C env request w0.
  assert (outcome (transcribe C env request empty_world)
          = Some (Ok (mkResponse
                        (jsonify
                           [(lit "error",
                             PStr (exn_str invalid_start_byte))])
                        500))) as E by (vm_compute; reflexivity).
  split; [vm_compute; reflexivity|].
  split; [vm_compute; reflexivity|].
  split; [vm_compute; discriminate|].
  split; [exact E|].
  intros (excerpt & w' & E'). rewrite E' in E. cbn [outcome fmap option_fmap
    option_map fst] in E.
  injection E as E. vm_compute in E. discriminate E.
Qed.

(** C1, at a failing input.  The disk fills up while the upload is written
    (line 56), after its temp file was created (line 55): the exception
    leaves the handler, no deletion is attempted, and the temp file stays on
    disk.  The [finally] block that deletes both files only covers the
    statements after line 61. *)
Theorem upload_left_behind_when_save_fails :
  let r := transcribe (scripted []) disk_full_env
             (upload "clip.webm" [Byte.x52]) empty_world in
  outcome r = Some (Error ENOSPC)
  /\ final_trace r = [ EvNamedTemporaryFile (lit ".webm");
                       EvSave (lit "/tmp/tmpabc.webm") ]
  /\ unlinked (final_trace r) = []
  /\ final_file r (lit "/tmp/tmpabc.webm") = Some [].
Proof. vm_compute. repeat split; reflexivity. Qed.

(** C2, at a failing input.  [mkstemp] fails (line 59): the exception is
    not caught by the handler, which returns no response at all; the upload
    stays on disk. *)
Theorem mkstemp_failure_leaves_handler :
  let r := transcribe (scripted []) no_descriptor_env
             (upload "clip.webm" [Byte.x52]) empty_world in
  outcome r = Some (Error EMFILE)
  /\ final_trace r = [ EvNamedTemporaryFile (lit ".webm");
                       EvSave (lit "/tmp/tmpabc.webm");
                       EvMkstemp (lit ".wav") ]
  /\ final_file r (lit "/tmp/tmpabc.webm") = Some [Byte.x52].
Proof. vm_compute. repeat split; reflexivity. Qed.

(** C10.  A request whose [file] field is present with an empty filename is
    not rejected: the handler never answers it with status 400 (a response,
    if any, has status 200 or 500), the first thing it does is to ask for a
    temp file with the suffix [.tmp], and once the two temp files exist the
    upload is in a file whose name ends with [.tmp] and the whole pipeline
    runs: transcoder, recognition, response, then the two deletions. *)
Theorem empty_filename_is_accepted C env request f w :
  getitem (lit "file") (files request) = Ok f ->
  filename f = [] ->
  exists r w',
    transcribe C env request w = Some (r, w')
    /\ (forall resp, r = Ok resp -> status resp = 200 \/ status resp = 500)
    /\ (exists evs,
          emitted w w' = EvNamedTemporaryFile (lit ".tmp") :: evs)
    /\ (forall tmp wav w0,
          temp_files env f w = Some (Ok (tmp, wav), w0) ->
          lit ".tmp" `suffix_of` tmp
          /\ fs w0 !! tmp = Some (content f)
          /\ exists resp fd evs,
               r = Ok resp /\ Forall recog_event evs
               /\ emitted w w'
                  = [EvNamedTemporaryFile (lit ".tmp"); EvSave tmp;
                     EvMkstemp (lit ".wav"); EvClose fd]
                    ++ EvRun (ffmpeg_cmd tmp wav 16000) :: evs
                    ++ [EvUnlink tmp; EvUnlink wav]).
Proof.
  intros Hf Hname.
  assert (str_or (splitext (filename f)).2 (lit ".tmp") = lit ".tmp") as Hsfx
    by (by rewrite Hname).
  destruct (total_temp_files env f w) as [[[[tmp wav]|e] w0] Ht].
  - destruct (transcribe_trace C env _ _ _ _ _ _ Hf Ht)
      as (r & w1 & w2 & fd & evs & Hb & E & F & T).
    rewrite Hsfx in T.
    exists (Ok (response_of r)), w2. split; [done|]. split; [|split].
    + intros resp [= <-]. apply response_of_status.
      intros resp ->. by apply try_body_Ok in Hb as (? & ? & _ & _ & ->).
    + rewrite T. by eexists.
    + intros tmp' wav' w0' H. rewrite Ht in H. injection H as <- <- <-.
      destruct (temp_files_Ok _ _ _ _ _ _ Ht)
        as (tok & fd' & tok' & _ & _ & Htmp & _ & Hne & Hfs & _).
      rewrite Hsfx in Htmp. split; [|split].
      * rewrite Htmp. apply temp_name_suffix.
      * rewrite Hfs, lookup_insert_ne by done. apply lookup_insert_eq.
      * by exists (response_of r), fd, evs.
  - exists (Error e), w0. split; [|split; [done|split]].
    + by apply temp_files_failure_escapes with f.
    + destruct (temp_files_first_event _ _ _ _ _ Ht) as (evs & T).
      rewrite Hsfx in T. exists evs. unfold emitted.
      by rewrite T, drop_app_length.
    + intros tmp wav w0' H. by rewrite H in Ht.
Qed.

Lemma empty_filename_is_accepted_witness :
  let C := scripted [lit "hi"; lit "there"] in
  let env := quiet_env "abc" "def" in
  let f := mkFile [] [Byte.x52] in
  let request := mkRequest [(lit "file", f)] in
  getitem (lit "file") (files request) = Ok f
  /\ filename f = []
  /\ outcome (transcribe C env request empty_world)
     = Some (Ok (mkResponse (jsonify [(lit "text", PStr (lit "hi there"))])
                   200))
  /\ exists r w',
       transcribe C env request empty_world = Some (r, w')
       /\ exists evs,
            emitted empty_world w' = EvNamedTemporaryFile (lit ".tmp") :: evs.
Proof.
  intros C env f request.
  assert (getitem (lit "file") (files request) = Ok f) as H1
    by (vm_compute; reflexivity).
  assert (filename f = []) as H2 by reflexivity.
  split; [exact H1|]. split; [exact H2|].
  split; [vm_compute; reflexivity|].
  destruct (empty_filename_is_accepted C env request f empty_world H1 H2)
    as (r & w' & E & _ & Hev & _).
  exists r, w'. split; [exact E | exact Hev].
Defined.

Lemma try_body_text C env tmp wav w frags w1 :
  recognise C env tmp wav w = Some (Ok (List.map PStr frags), w1) ->
  try_body C env tmp wav w
  = Some (Ok (mkResponse (jsonify [(lit "text", PStr (code_text frags))]) 200),
          w1).
Proof.
  intros H. unfold try_body. rewrite (bind_Ok _ _ _ _ _ H).
  unfold str_join. by rewrite as_strs_PStr.
Qed.

(** C4, at a counterexample.  The recogniser says [a], then a single space,
    then [b].  The handler keeps the whitespace-only fragment (line 78 drops
    the empty strings only) and answers [a   b], with three spaces in a row,
    where the text described by the specification is [a b]. *)
Lemma whitespace_only_fragment_is_kept :
  let C := scripted [lit "a"; lit " "; lit "b"] in
  let env := quiet_env "abc" "def" in
  let payload := replicate 4001 Byte.x00 in
  let frags := [lit "a"; lit " "; lit "b"] in
  outcome ((let* '(tmp, wav) :=
              temp_files env (mkFile (lit "clip.webm") payload) in
            recognise C env tmp wav) empty_world)
  = Some (Ok (List.map PStr frags))
  /\ outcome (transcribe C env (upload "clip.webm" payload) empty_world)
     = Some (Ok (mkResponse (jsonify [(lit "text", PStr (lit "a   b"))]) 200))
  /\ spec_text frags = lit "a b"
  /\ lit "a   b" <> spec_text frags
  /\ double_space (lit "a   b") = true.
Proof.
  vm_compute. repeat split; try reflexivity. discriminate.
Qed.

(** C4, as amended.  When recognition produced the fragment strings [frags],
    the response has status 200 and its [text] is those fragments, without
    the empty ones (a fragment of whitespace only is kept), joined with one
    space and then stripped.  That text never starts or ends with
    whitespace.  It has no two spaces in a row when every fragment is tidy
    (no space at either end, no two spaces in a row), and it is the text the
    specification describes when no fragment is made of whitespace only. *)
Theorem text_is_joined_fragments C env request f w tmp wav w0 frags w1 :
  getitem (lit "file") (files request) = Ok f ->
  temp_files env f w = Some (Ok (tmp, wav), w0) ->
  recognise C env tmp wav w0 = Some (Ok (List.map PStr frags), w1) ->
  exists w',
    transcribe C env request w
    = Some (Ok (mkResponse (jsonify [(lit "text", PStr (code_text frags))])
                  200), w')
    /\ leading_space (code_text frags) = false
    /\ trailing_space (code_text frags) = false
    /\ (Forall (fun s => tidy s = true) frags ->
        double_space (code_text frags) = false)
    /\ (Forall (fun s => s <> [] -> strip s <> []) frags ->
        code_text frags = spec_text frags).
Proof.
  intros Hf Ht Hr. apply try_body_text in Hr.
  destruct (transcribe_from_try_body C env _ _ _ _ _ _ _ _ Hf Ht Hr)
    as (w2 & E & _).
  exists w2. split; [exact E|].
  split; [apply strip_leading|]. split; [apply strip_trailing|].
  split; [apply code_text_no_double_space | apply code_text_spec_text].
Qed.

Lemma text_is_joined_fragments_witness :
  let C := scripted [lit "hello world"; []; lit "again"] in
  let env := quiet_env "abc" "def" in
  let f := mkFile (lit "clip.webm") (replicate 4001 Byte.x00) in
  let w0 := final_world (temp_files env f empty_world) in
  let frags := [lit "hello world"; []; lit "again"] in
  getitem (lit "file") (files (mkRequest [(lit "file", f)])) = Ok f
  /\ temp_files env f empty_world
     = Some (Ok (lit "/tmp/tmpabc.webm", lit "/tmp/tmpdef.wav"), w0)
  /\ recognise C env (lit "/tmp/tmpabc.webm") (lit "/tmp/tmpdef.wav") w0
     = Some (Ok (List.map PStr frags),
             final_world (recognise C env (lit "/tmp/tmpabc.webm")
                            (lit "/tmp/tmpdef.wav") w0))
  /\ code_text frags = lit "hello world again"
  /\ exists w',
       transcribe C env (mkRequest [(lit "file", f)]) empty_world
       = Some (Ok (mkResponse
                     (jsonify [(lit "text", PStr (code_text frags))]) 200),
               w').
Proof.
  intros C env f w0 frags.
  assert (getitem (lit "file") (files (mkRequest [(lit "file", f)])) = Ok f)
    as H1 by (vm_compute; reflexivity).
  assert (temp_files env f empty_world
          = Some (Ok (lit "/tmp/tmpabc.webm", lit "/tmp/tmpdef.wav"), w0))
    as H2 by (vm_compute; reflexivity).
  assert (recognise C env (lit "/tmp/tmpabc.webm") (lit "/tmp/tmpdef.wav") w0
          = Some (Ok (List.map PStr frags),
                  final_world (recognise C env (lit "/tmp/tmpabc.webm")
                                 (lit "/tmp/tmpdef.wav") w0)))
    as H3 by (vm_compute; reflexivity).
  split; [exact H1|]. split; [exact H2|]. split; [exact H3|].
  split; [vm_compute; reflexivity|].
  destruct (text_is_joined_fragments C env _ _ _ _ _ _ _ _ H1 H2 H3)
    as (w' & E & _).
  exists w'. exact E.
Defined.

(** ** What a successful call returned *)

Lemma lift_Ok {A} (r : result A) w a w' :
  lift r w = Some (Ok a, w') -> r = Ok a /\ w' = w.
Proof. destruct r; [by intros [= <- <-] | done]. Qed.

Lemma emit_lift_Ok {A} ev (r : result A) w a w' :
  (emit ev;; lift r) w = Some (Ok a, w') ->
  r = Ok a /\ w' = mkWorld (fs w) (trace w ++ [ev]).
Proof.
  intros H. apply bind_Ok_inv in H as ([] & w1 & [= <-] & H).
  by apply lift_Ok in H.
Qed.

Lemma convert_to_wav_Ok C i o rate w w' :
  convert_to_wav C i o rate w = Some (Ok tt, w') ->
  exists proc,
    run C (ffmpeg_cmd i o rate) (fs w) = Ok (proc, fs w')
    /\ returncode proc = 0.
Proof.
  unfold convert_to_wav, subprocess_run. intros H.
  apply bind_Ok_inv in H as (proc & w1 & H1 & H).
  apply bind_Ok_inv in H1 as ([] & w2 & [= <-] & H1).
  apply bind_Ok_inv in H1 as (m & w3 & [= <- <-] & H1).
  apply bind_Ok_inv in H1 as ([proc' m'] & w4 & H1 & H2).
  apply lift_Ok in H1 as (Hrun & ->).
  apply bind_Ok_inv in H2 as ([] & w5 & [= <-] & [= <- <-]).
  cbn [fs] in *. exists proc'.
  destruct (returncode proc' =? 0) eqn:Hrc; cbn [negb] in H.
  - injection H as <-. split; [done|]. by apply Z.eqb_eq.
  - apply bind_Ok_inv in H as (msg & w6 & _ & H). done.
Qed.

Lemma wave_open_Ok C env path w wf w' :
  wave_open C env path w = Some (Ok wf, w') ->
  exists b h,
    fs w !! path = Some b /\ wave_parse C b = Ok h
    /\ wf = mkWaveRead h (wavdata h) 0 /\ fs w' = fs w.
Proof.
  unfold wave_open. intros H.
  apply bind_Ok_inv in H as ([] & w1 & [= <-] & H).
  apply bind_Ok_inv in H as ([] & w2 & H1 & H).
  destruct (open_fault env); [done|]. injection H1 as <-.
  apply bind_Ok_inv in H as (m & w3 & [= <- <-] & H).
  cbn [fs] in H. destruct (fs w !! path) as [b|]; [|done].
  apply bind_Ok_inv in H as (h & w4 & H1 & [= <- <-]).
  apply lift_Ok in H1 as (Hp & ->). by exists b, h.
Qed.

(** The text of one recognition result. *)
Lemma silent_text C s r t :
  silent C s -> json_loads C s = Ok r ->
  py_get r (lit "text") (PStr []) = Ok t -> t = PStr [].
Proof.
  intros Hs Hr Ht. destruct r as [|d|]; [done| |done].
  injection Ht as <-. by destruct (Hs d Hr) as [-> | ->].
Qed.

(** ** Silence *)

Section Silence.
Context (C : Collab) (env : Env).
Hypothesis result_silent :
  forall rec s rec', Result C rec = Ok (s, rec') -> silent C s.
Hypothesis final_silent :
  forall rec s rec', FinalResult C rec = Ok (s, rec') -> silent C s.

Lemma read_loop_silent fuel wf rec results w rec' results' w' :
  Forall (fun t => t = PStr []) results ->
  read_loop C env fuel wf rec results w = Some (Ok (rec', results'), w') ->
  Forall (fun t => t = PStr []) results'.
Proof.
  revert wf rec results w.
  induction fuel as [|fuel IH]; intros wf rec results w Hres H; [done|].
  rewrite read_loop_S in H.
  apply bind_Ok_inv in H as ([d wf1] & w1 & _ & H).
  destruct (bool_decide (length d = 0%nat)).
  { by injection H as <- <- <-. }
  apply bind_Ok_inv in H as ([acc rec1] & w2 & _ & H).
  destruct acc; [|by eapply IH].
  apply bind_Ok_inv in H as ([s rec2] & w3 & H1 & H).
  apply emit_lift_Ok in H1 as (H1 & _).
  apply bind_Ok_inv in H as (r & w4 & H2 & H).
  apply lift_Ok in H2 as (H2 & _).
  apply bind_Ok_inv in H as (t & w5 & H3 & H).
  apply lift_Ok in H3 as (H3 & _).
  eapply IH; [|exact H].
  apply Forall_app. split; [done|]. constructor; [|done].
  eapply silent_text; eauto.
Qed.

Lemma recognise_silent tmp wav w results w' :
  recognise C env tmp wav w = Some (Ok results, w') ->
  Forall (fun t => t = PStr []) results.
Proof.
  unfold recognise. intros H.
  apply bind_Ok_inv in H as ([] & w1 & _ & H).
  apply bind_Ok_inv in H as (wf & w2 & _ & H).
  apply bind_Ok_inv in H as (rec & w3 & _ & H).
  apply bind_Ok_inv in H as (rec1 & w4 & _ & H).
  apply bind_Ok_inv in H as ([rec2 res] & w5 & Hloop & H).
  apply read_loop_silent in Hloop; [|done].
  apply bind_Ok_inv in H as ([s rec3] & w6 & H1 & H).
  apply emit_lift_Ok in H1 as (H1 & _).
  apply bind_Ok_inv in H as (r & w7 & H2 & H).
  apply lift_Ok in H2 as (H2 & _).
  apply bind_Ok_inv in H as (t & w8 & H3 & [= <- <-]).
  apply lift_Ok in H3 as (H3 & _).
  apply Forall_app. split; [done|]. constructor; [|done].
  eapply silent_text; eauto.
Qed.

End Silence.




(** ** Two requests with the same audio *)

(** The loop depends on the wave data and on the recogniser only: two runs
    that both complete collect the same results. *)
Lemma read_loop_same C env1 env2 fuel wf rec results wa wb v1 v2 wa' wb' :
  read_loop C env1 fuel wf rec results wa = Some (Ok v1, wa') ->
  read_loop C env2 fuel wf rec results wb = Some (Ok v2, wb') ->
  v1 = v2.
Proof.
  revert wf rec results wa wb.
  induction fuel as [|fuel IH]; intros wf rec results wa wb Ha Hb; [done|].
  rewrite read_loop_S in Ha, Hb.
  apply bind_Ok_inv in Ha as ([d1 wf1] & wa1 & Ha1 & Ha).
  apply bind_Ok_inv in Hb as ([d2 wf2] & wb1 & Hb1 & Hb).
  apply readframes_Ok in Ha1 as (-> & -> & _).
  apply readframes_Ok in Hb1 as (-> & -> & _).
  destruct (bool_decide _); [unfold ret in Ha, Hb; congruence|].
  apply bind_Ok_inv in Ha as ([acc1 rec1] & wa2 & Ha1 & Ha).
  apply bind_Ok_inv in Hb as ([acc2 rec2] & wb2 & Hb1 & Hb).
  apply emit_lift_Ok in Ha1 as (Ha1 & _).
  apply emit_lift_Ok in Hb1 as (Hb1 & _).
  rewrite Ha1 in Hb1. injection Hb1 as <- <-.
  destruct acc1; [|by eapply IH].
  apply bind_Ok_inv in Ha as ([s1 rec1'] & wa3 & Ha1' & Ha).
  apply bind_Ok_inv in Hb as ([s2 rec2'] & wb3 & Hb1' & Hb).
  apply emit_lift_Ok in Ha1' as (Ha1' & _).
  apply emit_lift_Ok in Hb1' as (Hb1' & _).
  rewrite Ha1' in Hb1'. injection Hb1' as <- <-.
  apply bind_Ok_inv in Ha as (r1 & wa4 & Ha2 & Ha).
  apply bind_Ok_inv in Hb as (r2 & wb4 & Hb2 & Hb).
  apply lift_Ok in Ha2 as (Ha2 & _). apply lift_Ok in Hb2 as (Hb2 & _).
  rewrite Ha2 in Hb2. injection Hb2 as <-.
  apply bind_Ok_inv in Ha as (t1 & wa5 & Ha3 & Ha).
  apply bind_Ok_inv in Hb as (t2 & wb5 & Hb3 & Hb).
  apply lift_Ok in Ha3 as (Ha3 & _). apply lift_Ok in Hb3 as (Hb3 & _).
  rewrite Ha3 in Hb3. injection Hb3 as <-.
  by eapply IH.
Qed.

(** Recognition depends on the content of the input file and on the
    extension of its name only, when the transcoder does. *)
Lemma recognise_same C env1 env2 tmp1 wav1 tmp2 wav2 c wa wb
    res1 res2 wa' wb' :
  transcoder_reads_content_and_extension C ->
  (splitext tmp1).2 = (splitext tmp2).2 ->
  fs wa !! tmp1 = Some c -> tmp1 <> wav1 ->
  fs wb !! tmp2 = Some c -> tmp2 <> wav2 ->
  recognise C env1 tmp1 wav1 wa = Some (Ok res1, wa') ->
  recognise C env2 tmp2 wav2 wb = Some (Ok res2, wb') ->
  res1 = res2.
Proof.
  intros (tr & Htr) Hext Hca Hna Hcb Hnb Ha Hb. unfold recognise in Ha, Hb.
  apply bind_Ok_inv in Ha as ([] & wa1 & Ha1 & Ha).
  apply bind_Ok_inv in Hb as ([] & wb1 & Hb1 & Hb).
  apply convert_to_wav_Ok in Ha1 as (pa & Hra & _).
  apply convert_to_wav_Ok in Hb1 as (pb & Hrb & _).
  apply (Htr _ _ _ _ _ _ _ Hca Hna) in Hra as (_ & Hoa).
  apply (Htr _ _ _ _ _ _ _ Hcb Hnb) in Hrb as (_ & Hob).
  rewrite <- Hext in Hob.
  apply bind_Ok_inv in Ha as (wfa & wa2 & Ha2 & Ha).
  apply bind_Ok_inv in Hb as (wfb & wb2 & Hb2 & Hb).
  apply wave_open_Ok in Ha2 as (ba & ha & Hba & Hpa & -> & _).
  apply wave_open_Ok in Hb2 as (bb & hb & Hbb & Hpb & -> & _).
  rewrite Hoa in Hba. rewrite Hob, Hba in Hbb. injection Hbb as <-.
  rewrite Hpa in Hpb. injection Hpb as <-.
  apply bind_Ok_inv in Ha as (ra & wa3 & Ha3 & Ha).
  apply bind_Ok_inv in Hb as (rb & wb3 & Hb3 & Hb).
  apply emit_lift_Ok in Ha3 as (Ha3 & _).
  apply emit_lift_Ok in Hb3 as (Hb3 & _).
  rewrite Ha3 in Hb3. injection Hb3 as <-.
  apply bind_Ok_inv in Ha as (ra' & wa4 & Ha4 & Ha).
  apply bind_Ok_inv in Hb as (rb' & wb4 & Hb4 & Hb).
  apply emit_lift_Ok in Ha4 as (Ha4 & _).
  apply emit_lift_Ok in Hb4 as (Hb4 & _).
  rewrite Ha4 in Hb4. injection Hb4 as <-.
  apply bind_Ok_inv in Ha as ([ra2 la] & wa5 & Ha5 & Ha).
  apply bind_Ok_inv in Hb as ([rb2 lb] & wb5 & Hb5 & Hb).
  pose proof (read_loop_same _ _ _ _ _ _ _ _ _ _ _ _ _ Ha5 Hb5) as Heq.
  injection Heq as <- <-.
  apply bind_Ok_inv in Ha as ([sa ra3] & wa6 & Ha6 & Ha).
  apply bind_Ok_inv in Hb as ([sb rb3] & wb6 & Hb6 & Hb).
  apply emit_lift_Ok in Ha6 as (Ha6 & _).
  apply emit_lift_Ok in Hb6 as (Hb6 & _).
  rewrite Ha6 in Hb6. injection Hb6 as <- <-.
  apply bind_Ok_inv in Ha as (fa & wa7 & Ha7 & Ha).
  apply bind_Ok_inv in Hb as (fb & wb7 & Hb7 & Hb).
  apply lift_Ok in Ha7 as (Ha7 & _). apply lift_Ok in Hb7 as (Hb7 & _).
  rewrite Ha7 in Hb7. injection Hb7 as <-.
  apply bind_Ok_inv in Ha as (ta & wa8 & Ha8 & [= <- _]).
  apply bind_Ok_inv in Hb as (tb & wb8 & Hb8 & [= <- _]).
  apply lift_Ok in Ha8 as (Ha8 & _). apply lift_Ok in Hb8 as (Hb8 & _).
  rewrite Ha8 in Hb8. by injection Hb8 as <-.
Qed.

(** A response of the handler for a request with a [file] field comes from
    the [try] statement. *)
Lemma transcribe_Ok_inv C env request f w resp w' :
  getitem (lit "file") (files request) = Ok f ->
  transcribe C env request w = Some (Ok resp, w') ->
  exists tmp wav w0 r w1,
    temp_files env f w = Some (Ok (tmp, wav), w0)
    /\ try_body C env tmp wav w0 = Some (r, w1)
    /\ resp = response_of r.
Proof.
  intros Hf H.
  destruct (total_temp_files env f w) as [[[[tmp wav]|e] w0] Ht].
  - destruct (total_try_body C env tmp wav w0) as [[r w1] Hb].
    destruct (transcribe_from_try_body C env _ _ _ _ _ _ _ _ Hf Ht Hb)
      as (w2 & E & _).
    rewrite E in H. injection H as <- <-.
    by exists tmp, wav, w0, r, w1.
  - by rewrite (temp_files_failure_escapes C env _ _ _ _ _ Hf Ht) in H.
Qed.

(** ** The suffix of the temp file *)

Lemma rfind_from_spec c p i found :
  ((c ∉ p) /\ rfind_from i c p found = found)
  \/ (exists k : nat,
        rfind_from i c p found = i + Z.of_nat k
        /\ p !! k = Some c
        /\ forall j, (k < j)%nat -> p !! j <> Some c).
Proof.
  revert i found. induction p as [|x p IH]; intros i found.
  - left. split; [apply not_elem_of_nil | done].
  - cbn [rfind_from].
    destruct (IH (i + 1) (if (x =? c)%N then i else found))
      as [[Hn E]|(k & E & Hk & Hlast)].
    + rewrite E. destruct (N.eqb_spec x c) as [->|Hne].
      * right. exists 0%nat. split; [lia|]. split; [done|].
        intros [|j] Hj; [lia|]. cbn. intros H.
        apply list_elem_of_lookup_2 in H. by apply Hn.
      * left. split; [|done]. apply not_elem_of_cons. split; [congruence|done].
    + right. exists (S k). rewrite E. split; [lia|]. split; [done|].
      intros [|j] Hj; [lia|]. cbn. apply Hlast. lia.
Qed.

(** The extension [splitext] splits off is empty, or it is the last dot of
    the name and what follows it, where there is no other dot and no path
    separator. *)
Lemma splitext_ext p :
  (splitext p).2 = []
  \/ exists rest,
       (splitext p).2 = extsep_char :: rest
       /\ (sep_char ∉ rest) /\ (extsep_char ∉ rest).
Proof.
  unfold splitext.
  destruct (_ && _) eqn:E; [|by left]. right. cbn [snd].
  apply andb_true_iff in E as [E _]. apply Z.gtb_lt in E.
  unfold rfind in *.
  destruct (rfind_from_spec extsep_char p 0 (-1))
    as [[_ Ed]|(k & Ed & Hk & Hkl)]; rewrite Ed in *.
  { destruct (rfind_from_spec sep_char p 0 (-1))
      as [[_ Es]|(ks & Es & _)]; rewrite Es in E; lia. }
  replace (Z.to_nat (0 + Z.of_nat k)) with k by lia.
  exists (drop (S k) p). split; [by apply drop_S|]. split.
  - intros Hin. apply list_elem_of_lookup_1 in Hin as [j Hj].
    rewrite lookup_drop in Hj.
    destruct (rfind_from_spec sep_char p 0 (-1))
      as [[Hn _]|(ks & Es & _ & Hsl)].
    + apply list_elem_of_lookup_2 in Hj. by apply Hn.
    + rewrite Es in E. apply (Hsl (S k + j)%nat); [lia|done].
  - intros Hin. apply list_elem_of_lookup_1 in Hin as [j Hj].
    rewrite lookup_drop in Hj. apply (Hkl (S k + j)%nat); [lia|done].
Qed.

Lemma upload_suffix_safe name :
  safe_suffix (str_or (splitext name).2 (lit ".tmp")).
Proof.
  unfold str_or. destruct (splitext_ext name) as [->|(rest & E & Hs & _)].
  - exists (lit "tmp"). split; [done|].
    apply (bool_decide_unpack _). by vm_compute.
  - rewrite E. rewrite bool_decide_eq_false_2 by done. by exists rest.
Qed.

Lemma wav_suffix_safe : safe_suffix (lit ".wav").
Proof.
  exists (lit "wav"). split; [done|].
  apply (bool_decide_unpack _). by vm_compute.
Qed.

(** ** The three ways a request ends *)

Lemma temp_files_events env f :
  emits (setup_event f) (temp_files env f).
Proof.
  unfold temp_files, persist_upload, NamedTemporaryFile, save, mkstemp,
    os_close, create_excl.
  repeat first
    [ progress intros
    | apply emits_bind | apply emits_ret | apply emits_raise
    | apply emits_lift | apply emits_fault
    | apply emits_get_fs | apply emits_put_fs
    | (apply emits_emit; first [exact I | reflexivity])
    | match goal with
      | |- emits _ (match ?x with _ => _ end) => destruct x
      end ].
Qed.

Lemma temp_files_fresh env f w tmp wav w0 :
  temp_files env f w = Some (Ok (tmp, wav), w0) ->
  fs w !! tmp = None /\ fs w !! wav = None.
Proof.
  intros H. unfold temp_files, persist_upload in H.
  apply bind_Ok_inv in H as (tmp' & w1 & H1 & H).
  apply bind_Ok_inv in H1 as (name & w2 & H1 & H2).
  apply NamedTemporaryFile_Ok in H1 as (tok & _ & -> & Hnew & ->).
  apply bind_Ok_inv in H2 as ([] & w3 & H2 & [= <- <-]).
  apply save_Ok in H2 as (_ & ->).
  apply bind_Ok_inv in H as ([fd wav'] & w4 & H3 & H).
  apply mkstemp_Ok in H3 as (tok' & _ & -> & Hnew' & ->).
  apply bind_Ok_inv in H as ([] & w5 & _ & [= <- <- _]).
  split; [done|]. cbn [fs] in Hnew'.
  destruct (decide (temp_name env tok (str_or (splitext (filename f)).2
                                         (lit ".tmp"))
                    = temp_name env tok' (lit ".wav"))) as [E|E].
  - rewrite <- E in Hnew'. by rewrite lookup_insert_eq in Hnew'.
  - by rewrite !lookup_insert_ne in Hnew'.
Qed.

Lemma transcribe_cases C env request w :
  (contains (lit "file") (files request) = false
   /\ transcribe C env request w = Some (Ok bad_request, w))
  \/ (exists f e w0,
        getitem (lit "file") (files request) = Ok f
        /\ temp_files env f w = Some (Error e, w0)
        /\ transcribe C env request w = Some (Error e, w0))
  \/ (exists f tmp wav w0 r w1 w2,
        getitem (lit "file") (files request) = Ok f
        /\ temp_files env f w = Some (Ok (tmp, wav), w0)
        /\ try_body C env tmp wav w0 = Some (r, w1)
        /\ finally_block env tmp wav w1 = Some (Ok tt, w2)
        /\ transcribe C env request w = Some (Ok (response_of r), w2)).
Proof.
  destruct (contains (lit "file") (files request)) eqn:Hc.
  - right. destruct (contains_getitem _ _ Hc) as [f Hf].
    destruct (total_temp_files env f w) as [[[[tmp wav]|e] w0] Ht].
    + right. destruct (total_try_body C env tmp wav w0) as [[r w1] Hb].
      destruct (finally_block_run env tmp wav w1) as (w2 & Hfin & _).
      exists f, tmp, wav, w0, r, w1, w2. repeat split; try done.
      unfold transcribe. rewrite Hc, Hf. cbn [negb].
      rewrite (bind_Ok (lift (Ok f)) _ w f w) by done.
      rewrite (bind_Ok _ _ _ _ _ Ht). unfold try_finally.
      by rewrite (try_except_response _ _ _ _ _ _ _ Hb), Hfin.
    + left. exists f, e, w0. repeat split; try done.
      by apply temp_files_failure_escapes with f.
  - left. split; [done|]. unfold transcribe. by rewrite Hc.
Qed.

Lemma emitted_same w : emitted w w = [].
Proof. unfold emitted. apply drop_all. Qed.

Lemma emitted_app w w' evs : trace w' = trace w ++ evs -> emitted w w' = evs.
Proof. unfold emitted. intros ->. apply drop_app_length. Qed.

Lemma setup_no_launch f evs :
  Forall (setup_event f) evs -> launched evs = [] /\ unlinked evs = [].
Proof.
  induction 1 as [|ev evs Hev _ [IH1 IH2]]; [done|].
  destruct ev; try done; by split.
Qed.

(** X6.  Every request ends in one of four ways.  Without a [file] field:
    status 400, and nothing was done.  With one: status 200 and a [text]
    string that neither starts nor ends with whitespace; or status 500 and
    an [error] string; or an exception that leaves the handler, raised while
    the temp files were created, before any process was launched and with no
    deletion attempted. *)
Theorem every_outcome C env request w :
  exists r w',
    transcribe C env request w = Some (r, w')
    /\ match r with
       | Ok resp =>
           (contains (lit "file") (files request) = false
            /\ resp = bad_request /\ w' = w)
           \/ (contains (lit "file") (files request) = true
               /\ status resp = 200
               /\ exists t, body resp = jsonify [(lit "text", PStr t)]
                    /\ leading_space t = false /\ trailing_space t = false)
           \/ (contains (lit "file") (files request) = true
               /\ status resp = 500
               /\ exists msg, body resp = jsonify [(lit "error", PStr msg)])
       | Error e =>
           contains (lit "file") (files request) = true
           /\ launched (emitted w w') = []
           /\ unlinked (emitted w w') = []
       end.
Proof.
  destruct (transcribe_cases C env request w)
    as [[Hc E]|[(f & e & w0 & Hf & Ht & E)
               |(f & tmp & wav & w0 & r & w1 & w2 & Hf & Ht & Hb & _ & E)]].
  - exists (Ok bad_request), w. split; [done|]. by left.
  - exists (Error e), w0. split; [done|].
    split; [by eapply getitem_contains|].
    destruct (temp_files_events env f _ _ _ Ht) as (evs & T & F).
    rewrite (emitted_app _ _ _ T). by apply setup_no_launch with f.
  - exists (Ok (response_of r)), w2. split; [done|]. right.
    pose proof (getitem_contains _ _ _ Hf) as Hc.
    destruct r as [resp|e].
    + left. apply try_body_Ok in Hb as (res & j & _ & _ & ->).
      split; [done|]. split; [done|]. exists (strip j).
      split; [done|]. split; [apply strip_leading | apply strip_trailing].
    + right. split; [done|]. split; [done|]. by eexists.
Qed.

(** X5.  An exception raised anywhere in the body of the [try] is answered
    with status 500 and the body [{"error": str(e)}], after the deletion of
    the upload's temp file and then of the wav file was attempted. *)
Theorem exception_in_try_is_500 C env request f w tmp wav w0 e w1 :
  getitem (lit "file") (files request) = Ok f ->
  temp_files env f w = Some (Ok (tmp, wav), w0) ->
  try_body C env tmp wav w0 = Some (Error e, w1) ->
  exists w',
    transcribe C env request w
    = Some (Ok (mkResponse (jsonify [(lit "error", PStr (exn_str e))]) 500),
            w')
    /\ emitted w1 w' = [EvUnlink tmp; EvUnlink wav].
Proof.
  intros Hf Ht Hb.
  destruct (transcribe_from_try_body C env _ _ _ _ _ _ _ _ Hf Ht Hb)
    as (w2 & E & T).
  exists w2. split; [exact E|]. by apply emitted_app.
Qed.

(** X12.  When the transcoder cannot be launched at all ([subprocess.run]
    raises, as it does when [ffmpeg] is not installed), the answer is status
    500 with the message of that exception, and after the launch attempt the
    handler does nothing but the two deletions: the wav file is not opened
    and no recogniser is constructed. *)
Theorem launch_failure_is_500 C env request f w tmp wav w0 e :
  getitem (lit "file") (files request) = Ok f ->
  temp_files env f w = Some (Ok (tmp, wav), w0) ->
  run C (ffmpeg_cmd tmp wav 16000) (fs w0) = Error e ->
  exists w',
    transcribe C env request w
    = Some (Ok (mkResponse (jsonify [(lit "error", PStr (exn_str e))]) 500),
            w')
    /\ emitted w0 w' = [EvRun (ffmpeg_cmd tmp wav 16000);
                        EvUnlink tmp; EvUnlink wav].
Proof.
  intros Hf Ht Hrun.
  assert (try_body C env tmp wav w0
          = Some (Error e,
                  mkWorld (fs w0)
                    (trace w0 ++ [EvRun (ffmpeg_cmd tmp wav 16000)]))) as Hb.
  { apply try_body_convert_fails. unfold convert_to_wav.
    apply bind_Error. unfold subprocess_run, bind, emit, get_fs, lift.
    cbn [fs trace]. by rewrite Hrun. }
  destruct (transcribe_from_try_body C env _ _ _ _ _ _ _ _ Hf Ht Hb)
    as (w2 & E & T).
  exists w2. split; [exact E|]. apply emitted_app.
  rewrite T. cbn [trace]. by rewrite <- app_assoc.
Qed.

(** X13.  The handler never tries to delete a file that was there before
    the request: every path given to [os.unlink] did not exist when the
    request came in (it is one of the two temp files, created new). *)
Theorem never_deletes_existing_file C env request w r w' p :
  transcribe C env request w = Some (r, w') ->
  p ∈ unlinked (emitted w w') ->
  fs w !! p = None.
Proof.
  intros H Hp.
  destruct (transcribe_cases C env request w)
    as [[Hc E]|[(f & e & w0 & Hf & Ht & E)
               |(f & tmp & wav & w0 & r' & w1 & w2 & Hf & Ht & Hb & _ & E)]];
    rewrite E in H; injection H as <- <-.
  - rewrite emitted_same in Hp. by apply elem_of_nil in Hp.
  - destruct (temp_files_events env f _ _ _ Ht) as (evs & T & F).
    rewrite (emitted_app _ _ _ T) in Hp.
    destruct (setup_no_launch _ _ F) as [_ Hu]. rewrite Hu in Hp.
    by apply elem_of_nil in Hp.
  - destruct (errors_in_try_are_500 C env _ _ _ _ _ _ Hf Ht)
      as (resp & w2' & E' & _ & U).
    rewrite E in E'. assert (w2 = w2') as <- by congruence.
    rewrite U in Hp. destruct (temp_files_fresh _ _ _ _ _ _ Ht) as [H1 H2].
    apply elem_of_cons in Hp as [->|Hp]; [done|].
    apply elem_of_cons in Hp as [->|Hp]; [done|].
    by apply elem_of_nil in Hp.
Qed.

(** X2.  When lines 55 to 60 succeed, the two temp files are new (neither
    path existed, and they differ), the input file holds the bytes of the
    upload, the output file is empty and named [*.wav], and no other file
    was touched. *)
Theorem temp_files_are_new env f w tmp wav w0 :
  temp_files env f w = Some (Ok (tmp, wav), w0) ->
  fs w !! tmp = None /\ fs w !! wav = None /\ tmp <> wav
  /\ fs w0 !! tmp = Some (content f) /\ fs w0 !! wav = Some []
  /\ lit ".wav" `suffix_of` wav
  /\ forall p, p <> tmp -> p <> wav -> fs w0 !! p = fs w !! p.
Proof.
  intros Ht. destruct (temp_files_fresh _ _ _ _ _ _ Ht) as [H1 H2].
  destruct (temp_files_Ok _ _ _ _ _ _ Ht)
    as (tok & fd & tok' & _ & _ & _ & Hwav & Hne & Hfs & _).
  split; [done|]. split; [done|]. split; [done|]. rewrite Hfs.
  split; [|split; [|split]].
  - rewrite lookup_insert_ne by done. apply lookup_insert_eq.
  - apply lookup_insert_eq.
  - rewrite Hwav. apply temp_name_suffix.
  - intros p Hp1 Hp2. by rewrite !lookup_insert_ne.
Qed.

(** X1.  Whatever filename the client declares, every suffix the handler
    asks [tempfile] for starts with a dot and holds no path separator: the
    filename cannot move a temp file out of the temp directory. *)
Theorem temp_suffixes_are_safe C env request w r w' s :
  transcribe C env request w = Some (r, w') ->
  EvNamedTemporaryFile s ∈ emitted w w' \/ EvMkstemp s ∈ emitted w w' ->
  safe_suffix s.
Proof.
  intros H Hs.
  assert (forall f evs, Forall (setup_event f) evs ->
            EvNamedTemporaryFile s ∈ evs \/ EvMkstemp s ∈ evs ->
            safe_suffix s) as Hsetup.
  { intros f evs F [Hin|Hin];
      apply (proj1 (Forall_forall _ _) F) in Hin; cbn in Hin; subst s.
    - apply upload_suffix_safe.
    - apply wav_suffix_safe. }
  destruct (transcribe_cases C env request w)
    as [[Hc E]|[(f & e & w0 & Hf & Ht & E)
               |(f & tmp & wav & w0 & r' & w1 & w2 & Hf & Ht & Hb & _ & E)]];
    rewrite E in H; injection H as <- <-.
  - rewrite emitted_same in Hs.
    by destruct Hs as [Hs|Hs]; apply elem_of_nil in Hs.
  - destruct (temp_files_events env f _ _ _ Ht) as (evs & T & F).
    rewrite (emitted_app _ _ _ T) in Hs. by apply (Hsetup f evs).
  - destruct (temp_files_events env f _ _ _ Ht) as (evs0 & T0 & F0).
    destruct (try_body_trace _ _ _ _ _ _ _ Hb) as (evs1 & T1 & F1).
    destruct (transcribe_from_try_body C env _ _ _ _ _ _ _ _ Hf Ht Hb)
      as (w2' & E' & T2).
    rewrite E in E'. assert (w2 = w2') as <- by congruence.
    assert (emitted w w2
            = evs0 ++ (EvRun (ffmpeg_cmd tmp wav 16000) :: evs1)
              ++ [EvUnlink tmp; EvUnlink wav]) as Hem.
    { apply emitted_app. by rewrite T2, T1, T0, <- !app_assoc. }
    rewrite Hem in Hs.
    assert (forall ev, (forall c, ev <> EvRun c) ->
              (forall q, ev <> EvUnlink q) -> ~ recog_event ev ->
              ev ∈ evs0 ++ (EvRun (ffmpeg_cmd tmp wav 16000) :: evs1)
                   ++ [EvUnlink tmp; EvUnlink wav] -> ev ∈ evs0) as Hin.
    { intros ev Hr Hu Hn Hev.
      apply elem_of_app in Hev as [Hev|Hev]; [done|].
      apply elem_of_app in Hev as [Hev|Hev].
      - apply elem_of_cons in Hev as [->|Hev]; [exfalso; by eapply Hr|].
        by apply (proj1 (Forall_forall _ _) F1) in Hev.
      - apply elem_of_cons in Hev as [->|Hev]; [exfalso; by eapply Hu|].
        apply elem_of_cons in Hev as [->|Hev]; [exfalso; by eapply Hu|].
        by apply elem_of_nil in Hev. }
    apply (Hsetup f evs0 F0).
    destruct Hs as [Hs|Hs]; [left|right];
      (apply Hin; [done | done | by intros [] | done]).
Qed.

Lemma temp_suffixes_are_safe_witness :
  let r := transcribe (scripted [lit "ok"]) (quiet_env "abc" "def")
             (upload "../../etc/x.d/clip.we/bm" [Byte.x52]) empty_world in
  r = Some (Ok (mkResponse (jsonify [(lit "text", PStr (lit "ok"))]) 200),
            final_world r)
  /\ EvNamedTemporaryFile (lit ".tmp") ∈ emitted empty_world (final_world r)
  /\ safe_suffix (lit ".tmp").
Proof.
  intros r.
  assert (r = Some (Ok (mkResponse (jsonify [(lit "text", PStr (lit "ok"))])
                          200), final_world r)) as H1
    by (vm_compute; reflexivity).
  assert (EvNamedTemporaryFile (lit ".tmp")
            ∈ emitted empty_world (final_world r)) as H2
    by (vm_compute; apply list_elem_of_here).
  split; [exact H1|]. split; [exact H2|].
  exact (temp_suffixes_are_safe _ _ _ _ _ _ _ H1 (or_introl H2)).
Defined.

Lemma exception_in_try_is_500_witness :
  let C := scripted [] in
  let env := quiet_env "abc" "def" in
  let f := mkFile (lit "clip.webm") [] in
  let w0 := final_world (temp_files env f empty_world) in
  let b := try_body C env (lit "/tmp/tmpabc.webm") (lit "/tmp/tmpdef.wav") w0 in
  getitem (lit "file") (files (mkRequest [(lit "file", f)])) = Ok f
  /\ temp_files env f empty_world
     = Some (Ok (lit "/tmp/tmpabc.webm", lit "/tmp/tmpdef.wav"), w0)
  /\ b = Some (Error (RuntimeError (lit "ffmpeg failed: Invalid data found")),
               final_world b)
  /\ exists w',
       transcribe C env (mkRequest [(lit "file", f)]) empty_world
       = Some (Ok (mkResponse
                     (jsonify
                        [(lit "error",
                          PStr (lit "ffmpeg failed: Invalid data found"))])
                     500), w').
Proof.
  intros C env f w0 b.
  assert (getitem (lit "file") (files (mkRequest [(lit "file", f)])) = Ok f)
    as H1 by (vm_compute; reflexivity).
  assert (temp_files env f empty_world
          = Some (Ok (lit "/tmp/tmpabc.webm", lit "/tmp/tmpdef.wav"), w0))
    as H2 by (vm_compute; reflexivity).
  assert (b = Some (Error (RuntimeError
                             (lit "ffmpeg failed: Invalid data found")),
                    final_world b)) as H3 by (vm_compute; reflexivity).
  split; [exact H1|]. split; [exact H2|]. split; [exact H3|].
  destruct (exception_in_try_is_500 C env _ _ _ _ _ _ _ _ H1 H2 H3)
    as (w' & E & _).
  exists w'. exact E.
Defined.

Lemma launch_failure_is_500_witness :
  let env := quiet_env "abc" "def" in
  let f := mkFile (lit "clip.webm") [Byte.x52] in
  let w0 := final_world (temp_files env f empty_world) in
  getitem (lit "file") (files (mkRequest [(lit "file", f)])) = Ok f
  /\ temp_files env f empty_world
     = Some (Ok (lit "/tmp/tmpabc.webm", lit "/tmp/tmpdef.wav"), w0)
  /\ run no_ffmpeg
       (ffmpeg_cmd (lit "/tmp/tmpabc.webm") (lit "/tmp/tmpdef.wav") 16000)
       (fs w0) = Error FileNotFoundError
  /\ exists w',
       transcribe no_ffmpeg env (mkRequest [(lit "file", f)]) empty_world
       = Some (Ok (mkResponse
                     (jsonify
                        [(lit "error", PStr (exn_str FileNotFoundError))])
                     500), w').
Proof.
  intros env f w0.
  assert (getitem (lit "file") (files (mkRequest [(lit "file", f)])) = Ok f)
    as H1 by (vm_compute; reflexivity).
  assert (temp_files env f empty_world
          = Some (Ok (lit "/tmp/tmpabc.webm", lit "/tmp/tmpdef.wav"), w0))
    as H2 by (vm_compute; reflexivity).
  assert (run no_ffmpeg
            (ffmpeg_cmd (lit "/tmp/tmpabc.webm") (lit "/tmp/tmpdef.wav") 16000)
            (fs w0) = Error FileNotFoundError) as H3 by reflexivity.
  split; [exact H1|]. split; [exact H2|]. split; [exact H3|].
  destruct (launch_failure_is_500 no_ffmpeg env _ _ _ _ _ _ _ H1 H2 H3)
    as (w' & E & _).
  exists w'. exact E.
Defined.

Lemma never_deletes_existing_file_witness :
  let r := transcribe (scripted [lit "ok"]) (quiet_env "abc" "def")
             (upload "clip.webm" [Byte.x52]) empty_world in
  r = Some (Ok (mkResponse (jsonify [(lit "text", PStr (lit "ok"))]) 200),
            final_world r)
  /\ lit "/tmp/tmpdef.wav" ∈ unlinked (emitted empty_world (final_world r))
  /\ fs empty_world !! lit "/tmp/tmpdef.wav" = None.
Proof.
  intros r.
  assert (r = Some (Ok (mkResponse (jsonify [(lit "text", PStr (lit "ok"))])
                          200), final_world r)) as H1
    by (vm_compute; reflexivity).
  assert (lit "/tmp/tmpdef.wav"
            ∈ unlinked (emitted empty_world (final_world r))) as H2
    by (vm_compute; apply list_elem_of_further, list_elem_of_here).
  split; [exact H1|]. split; [exact H2|].
  exact (never_deletes_existing_file _ _ _ _ _ _ _ H1 H2).
Defined.

Lemma temp_files_are_new_witness :
  let env := quiet_env "abc" "def" in
  let f := mkFile (lit "clip.webm") [Byte.x52] in
  let w0 := final_world (temp_files env f empty_world) in
  temp_files env f empty_world
  = Some (Ok (lit "/tmp/tmpabc.webm", lit "/tmp/tmpdef.wav"), w0)
  /\ fs w0 !! lit "/tmp/tmpabc.webm" = Some [Byte.x52]
  /\ fs w0 !! lit "/tmp/tmpdef.wav" = Some [].
Proof.
  intros env f w0.
  assert (temp_files env f empty_world
          = Some (Ok (lit "/tmp/tmpabc.webm", lit "/tmp/tmpdef.wav"), w0))
    as H1 by (vm_compute; reflexivity).
  split; [exact H1|].
  destruct (temp_files_are_new _ _ _ _ _ _ H1)
    as (_ & _ & _ & Ha & Hb & _).
  split; [exact Ha | exact Hb].
Defined.

(** ** The files on disk *)

Lemma keeps_fs_bind {A B} (m : M A) (k : A -> M B) :
  keeps_fs m -> (forall a, keeps_fs (k a)) -> keeps_fs (bind m k).
Proof.
  intros Hm Hk w r w' H.
  apply bind_Some_inv in H as [(a & w1 & H1 & H2)|(e & H1 & _)].
  - rewrite (Hk _ _ _ _ H2). by apply (Hm _ _ _ H1).
  - by apply (Hm _ _ _ H1).
Qed.

Lemma keeps_fs_ret {A} (a : A) : keeps_fs (ret a).
Proof. by intros w r w' [= <- <-]. Qed.

Lemma keeps_fs_raise {A} e : keeps_fs (@raise A e).
Proof. by intros w r w' [= <- <-]. Qed.

Lemma keeps_fs_lift {A} (r : result A) : keeps_fs (lift r).
Proof. destruct r; [apply keeps_fs_ret | apply keeps_fs_raise]. Qed.

Lemma keeps_fs_fault o : keeps_fs (fault o).
Proof. destruct o; [apply keeps_fs_raise | apply keeps_fs_ret]. Qed.

Lemma keeps_fs_emit ev : keeps_fs (emit ev).
Proof. by intros w r w' [= <- <-]. Qed.

Lemma keeps_fs_get_fs : keeps_fs get_fs.
Proof. by intros w r w' [= <- <-]. Qed.

Ltac keep :=
  repeat first
    [ progress intros
    | apply keeps_fs_bind | apply keeps_fs_ret | apply keeps_fs_raise
    | apply keeps_fs_lift | apply keeps_fs_fault | apply keeps_fs_emit
    | apply keeps_fs_get_fs
    | match goal with
      | |- keeps_fs (match ?x with _ => _ end) => destruct x
      end ].

Lemma keeps_fs_read_loop C env fuel wf rec results :
  keeps_fs (read_loop C env fuel wf rec results).
Proof.
  revert wf rec results.
  induction fuel as [|fuel IH]; intros wf rec results.
  - by intros w r w' ?.
  - rewrite read_loop_S.
    unfold readframes, rec_AcceptWaveform, rec_Result.
    keep; apply IH.
Qed.

Lemma subprocess_run_fs C cmd w r w' :
  subprocess_run C cmd w = Some (r, w') ->
  fs w' = fs w \/ exists proc, run C cmd (fs w) = Ok (proc, fs w').
Proof.
  unfold subprocess_run, bind, emit, get_fs, lift, put_fs, ret, raise.
  cbn [fs trace]. destruct (run C cmd (fs w)) as [[proc m']|e].
  - intros [= <- <-]. right. by exists proc.
  - intros [= <- <-]. by left.
Qed.

Ltac keeps_in H :=
  match type of H with
  | ?m ?w = Some (_, _) =>
      let Hk := fresh "Hk" in
      assert (keeps_fs m) as Hk; [ | apply Hk in H ]
  end.

Lemma convert_to_wav_fs C i o rate w r w' :
  convert_to_wav C i o rate w = Some (r, w') ->
  fs w' = fs w
  \/ exists proc, run C (ffmpeg_cmd i o rate) (fs w) = Ok (proc, fs w').
Proof.
  unfold convert_to_wav. intros H.
  apply bind_Some_inv in H as [(proc & w1 & H1 & H2)|(e & H1 & _)];
    [|by eapply subprocess_run_fs].
  apply subprocess_run_fs in H1. keeps_in H2; [keep|]. by rewrite H2.
Qed.

Lemma recognise_fs C env tmp wav w r w' :
  recognise C env tmp wav w = Some (r, w') ->
  fs w' = fs w
  \/ exists proc, run C (ffmpeg_cmd tmp wav 16000) (fs w) = Ok (proc, fs w').
Proof.
  unfold recognise. intros H.
  apply bind_Some_inv in H as [([] & w1 & H1 & H2)|(e & H1 & _)];
    [|by eapply convert_to_wav_fs].
  apply convert_to_wav_fs in H1. keeps_in H2; [|by rewrite H2].
  unfold wave_open, new_recognizer, rec_SetWords, rec_FinalResult.
  keep; apply keeps_fs_read_loop.
Qed.

(** The body of the [try] changes the files on disk through the transcoder
    only. *)
Lemma try_body_fs C env tmp wav w r w1 :
  try_body C env tmp wav w = Some (r, w1) ->
  fs w1 = fs w
  \/ exists proc, run C (ffmpeg_cmd tmp wav 16000) (fs w) = Ok (proc, fs w1).
Proof.
  unfold try_body. intros H.
  apply bind_Some_inv in H as [(res & w2 & H1 & H2)|(e & H1 & _)];
    [|by eapply recognise_fs].
  apply recognise_fs in H1. keeps_in H2; [keep|]. by rewrite H2.
Qed.

(** One deletion: the file is gone, unless the deletion itself failed. *)
Lemma try_pass_unlink_fs env p w w1 :
  try_pass (os_unlink env p) w = Some (Ok tt, w1) ->
  fs w1 = match unlink_fault env p with
          | Some _ => fs w
          | None => delete p (fs w)
          end.
Proof.
  unfold try_pass, try_except, os_unlink, bind, emit, fault, get_fs,
    put_fs, ret, raise.
  destruct (unlink_fault env p); cbn [fs trace]; [by intros [= <-]|].
  destruct (fs w !! p) eqn:E; intros [= <-]; cbn [fs]; [done|].
  by rewrite delete_id.
Qed.

Lemma finally_block_fs env tmp wav w w' :
  finally_block env tmp wav w = Some (Ok tt, w') ->
  (unlink_fault env tmp = None -> fs w' !! tmp = None)
  /\ (unlink_fault env wav = None -> fs w' !! wav = None)
  /\ (forall p, p <> tmp -> p <> wav -> fs w' !! p = fs w !! p).
Proof.
  unfold finally_block. intros H.
  apply bind_Ok_inv in H as ([] & w1 & H1 & H2).
  apply try_pass_unlink_fs in H1, H2. rewrite H2, H1.
  split; [|split].
  - intros ->. destruct (unlink_fault env wav).
    + apply lookup_delete_eq.
    + rewrite lookup_delete. case_decide; [done|apply lookup_delete_eq].
  - intros ->. apply lookup_delete_eq.
  - intros p Hp1 Hp2.
    destruct (unlink_fault env wav), (unlink_fault env tmp);
      by rewrite ?lookup_delete_ne.
Qed.

(** X3.  After a request whose two temp files were created, each of them is
    gone from the disk unless its own deletion failed, whatever the response
    and whatever the transcoder did. *)
Theorem no_temp_file_left C env request f w tmp wav w0 :
  getitem (lit "file") (files request) = Ok f ->
  temp_files env f w = Some (Ok (tmp, wav), w0) ->
  exists resp w',
    transcribe C env request w = Some (Ok resp, w')
    /\ (unlink_fault env tmp = None -> fs w' !! tmp = None)
    /\ (unlink_fault env wav = None -> fs w' !! wav = None).
Proof.
  intros Hf Ht.
  destruct (transcribe_cases C env request w)
    as [[Hc E]|[(f' & e & w0' & Hf' & Ht' & E)
               |(f' & tmp' & wav' & w0' & r & w1 & w2 & Hf' & Ht' & Hb & Hfin
                 & E)]].
  - by rewrite (getitem_contains _ _ _ Hf) in Hc.
  - rewrite Hf in Hf'. injection Hf' as <-. by rewrite Ht in Ht'.
  - rewrite Hf in Hf'. injection Hf' as <-.
    rewrite Ht in Ht'. injection Ht' as <- <- <-.
    exists (response_of r), w2. split; [done|].
    by destruct (finally_block_fs _ _ _ _ _ Hfin) as (H1 & H2 & _).
Qed.

Lemma no_temp_file_left_witness :
  let env := quiet_env "abc" "def" in
  let f := mkFile (lit "clip.webm") [Byte.x52] in
  let w0 := final_world (temp_files env f empty_world) in
  getitem (lit "file") (files (mkRequest [(lit "file", f)])) = Ok f
  /\ temp_files env f empty_world
     = Some (Ok (lit "/tmp/tmpabc.webm", lit "/tmp/tmpdef.wav"), w0)
  /\ exists resp w',
       transcribe (scripted [lit "ok"]) env (mkRequest [(lit "file", f)])
         empty_world = Some (Ok resp, w')
       /\ fs w' !! lit "/tmp/tmpabc.webm" = None
       /\ fs w' !! lit "/tmp/tmpdef.wav" = None.
Proof.
  intros env f w0.
  assert (getitem (lit "file") (files (mkRequest [(lit "file", f)])) = Ok f)
    as H1 by (vm_compute; reflexivity).
  assert (temp_files env f empty_world
          = Some (Ok (lit "/tmp/tmpabc.webm", lit "/tmp/tmpdef.wav"), w0))
    as H2 by (vm_compute; reflexivity).
  split; [exact H1|]. split; [exact H2|].
  destruct (no_temp_file_left (scripted [lit "ok"]) env _ _ _ _ _ _ H1 H2)
    as (resp & w' & E & Ha & Hb).
  exists resp, w'. split; [exact E|].
  split; [apply Ha | apply Hb]; reflexivity.
Defined.

(** X4.  With a transcoder that writes no file but its output, and
    deletions that succeed, a request leaves the disk exactly as it found
    it. *)
Theorem disk_is_restored C env request f w tmp wav w0 :
  transcoder_writes_output_only C ->
  getitem (lit "file") (files request) = Ok f ->
  temp_files env f w = Some (Ok (tmp, wav), w0) ->
  unlink_fault env tmp = None ->
  unlink_fault env wav = None ->
  exists resp w',
    transcribe C env request w = Some (Ok resp, w') /\ fs w' = fs w.
Proof.
  intros Hrun Hf Ht Hu1 Hu2.
  destruct (transcribe_cases C env request w)
    as [[Hc E]|[(f' & e & w0' & Hf' & Ht' & E)
               |(f' & tmp' & wav' & w0' & r & w1 & w2 & Hf' & Ht' & Hb & Hfin
                 & E)]].
  - by rewrite (getitem_contains _ _ _ Hf) in Hc.
  - rewrite Hf in Hf'. injection Hf' as <-. by rewrite Ht in Ht'.
  - rewrite Hf in Hf'. injection Hf' as <-.
    rewrite Ht in Ht'. injection Ht' as <- <- <-.
    exists (response_of r), w2. split; [done|].
    destruct (finally_block_fs _ _ _ _ _ Hfin) as (H1 & H2 & H3).
    destruct (temp_files_fresh _ _ _ _ _ _ Ht) as [Hn1 Hn2].
    destruct (temp_files_Ok _ _ _ _ _ _ Ht)
      as (_ & _ & _ & _ & _ & _ & _ & Hne & Hfs & _).
    apply map_eq. intros p.
    destruct (decide (p = tmp)) as [->|Hp1]; [by rewrite H1, Hn1|].
    destruct (decide (p = wav)) as [->|Hp2]; [by rewrite H2, Hn2|].
    rewrite H3 by done.
    assert (fs w0 !! p = fs w !! p) as <-.
    { by rewrite Hfs, !lookup_insert_ne. }
    destruct (try_body_fs _ _ _ _ _ _ _ Hb) as [->|[proc Hp]]; [done|].
    by apply (Hrun _ _ _ _ _ _ Hp).
Qed.

Lemma copy_transcoder_writes_output_only script :
  transcoder_writes_output_only (scripted script).
Proof.
  intros i o rate m proc m'. cbn [run scripted].
  unfold copy_transcoder. cbn [lookup list_lookup].
  destruct (m !! i) as [[|b c]|]; intros [= <- <-] p Hp;
    by rewrite ?lookup_insert_ne.
Qed.

Lemma disk_is_restored_witness :
  let env := quiet_env "abc" "def" in
  let f := mkFile (lit "clip.webm") [Byte.x52] in
  let w := mkWorld {[ lit "/tmp/keep.me" := [Byte.x01] ]} [] in
  let w0 := final_world (temp_files env f w) in
  getitem (lit "file") (files (mkRequest [(lit "file", f)])) = Ok f
  /\ temp_files env f w
     = Some (Ok (lit "/tmp/tmpabc.webm", lit "/tmp/tmpdef.wav"), w0)
  /\ exists resp w',
       transcribe (scripted [lit "ok"]) env (mkRequest [(lit "file", f)]) w
       = Some (Ok resp, w')
       /\ fs w' = {[ lit "/tmp/keep.me" := [Byte.x01] ]}.
Proof.
  intros env f w w0.
  assert (getitem (lit "file") (files (mkRequest [(lit "file", f)])) = Ok f)
    as H1 by (vm_compute; reflexivity).
  assert (temp_files env f w
          = Some (Ok (lit "/tmp/tmpabc.webm", lit "/tmp/tmpdef.wav"), w0))
    as H2 by (vm_compute; reflexivity).
  split; [exact H1|]. split; [exact H2|].
  exact (disk_is_restored (scripted [lit "ok"]) env _ _ _ _ _ _
           (copy_transcoder_writes_output_only _) H1 H2 eq_refl eq_refl).
Defined.

(** ** The loop of the handler *)

Lemma lift_run {A} (x : result A) w : lift x w = Some (x, w).
Proof. by destruct x. Qed.

Lemma emit_lift_run {A} ev (x : result A) w :
  (emit ev;; lift x) w = Some (x, mkWorld (fs w) (trace w ++ [ev])).
Proof. unfold bind, emit. by destruct x. Qed.

Lemma readframes_run env wf n w :
  exists r,
    readframes env wf n w
    = Some (r, mkWorld (fs w) (trace w ++ [EvReadframes n])).
Proof.
  unfold readframes, bind, emit, fault, ret, raise.
  destruct (read_fault env (wr_reads wf)); by eexists.
Qed.

Lemma loop_post_fail {A} h rest n evs e :
  Forall loop_event evs ->
  Forall (fun k => k = 4000) (frames_asked evs) ->
  concat (accepted evs) `prefix_of` rest ->
  Forall (chunk_ok h) (accepted evs) ->
  @loop_post A h rest n evs (Error e).
Proof. intros. by repeat split. Qed.

Lemma loop_post_leave {A} h rest (a : A) results :
  take (chunk_size h) rest = [] ->
  loop_post h rest (length results) [EvReadframes 4000] (Ok (a, results)).
Proof.
  intros Hd. unfold loop_post.
  split; [by repeat constructor|]. split; [by repeat constructor|].
  split; [apply prefix_nil|]. split; [constructor|].
  intros a' results' [= <- <-]. split; [done|]. split; [cbn; lia|].
  unfold chunk_size in *. intros Hfs. cbn.
  destruct rest as [|b rest]; [done|].
  destruct (Z.to_nat 4000 * framesize h)%nat eqn:E; [lia|done].
Qed.

Lemma loop_post_step {A} h rest n d (b : bool) evs
    (r : result (A * list pyval)) :
  d = take (chunk_size h) rest -> d <> [] ->
  loop_post h (drop (chunk_size h) rest) (n + (if b then 1 else 0)) evs r ->
  loop_post h rest n
    (EvReadframes 4000 :: EvAcceptWaveform d
       :: (if b then [EvResult] else []) ++ evs) r.
Proof.
  intros Hd Hne (F1 & F2 & P & F3 & Hok). unfold loop_post.
  assert (accepted (EvReadframes 4000 :: EvAcceptWaveform d
                      :: (if b then [EvResult] else []) ++ evs)
          = d :: accepted evs) as Ea by (by destruct b).
  assert (frames_asked (EvReadframes 4000 :: EvAcceptWaveform d
                          :: (if b then [EvResult] else []) ++ evs)
          = 4000 :: frames_asked evs) as Ef by (by destruct b).
  assert (results_asked (EvReadframes 4000 :: EvAcceptWaveform d
                           :: (if b then [EvResult] else []) ++ evs)
          = ((if b then 1 else 0) + results_asked evs)%nat) as Er
    by (by destruct b).
  rewrite Ea, Ef, Er.
  split; [by destruct b; repeat constructor|].
  split; [by constructor|].
  split.
  { cbn [concat]. rewrite Hd.
    rewrite <- (take_drop (chunk_size h) rest) at 2. by apply prefix_app. }
  split.
  { constructor; [|done]. split; [done|].
    rewrite Hd, length_take. lia. }
  intros a results ->. destruct (Hok a results eq_refl) as (L1 & L2 & L3).
  split; [cbn [length]; lia|]. split; [lia|].
  intros Hfs. cbn [concat]. rewrite (L3 Hfs), Hd. apply take_drop.
Qed.

(** What the loop does, however it is left. *)
Lemma read_loop_post C env fuel wf rec results w r w' :
  read_loop C env fuel wf rec results w = Some (r, w') ->
  exists evs,
    trace w' = trace w ++ evs
    /\ loop_post (wr_header wf) (wr_rest wf) (length results) evs r.
Proof.
  revert wf rec results w r w'.
  induction fuel as [|fuel IH]; intros wf rec results w r w' H; [done|].
  rewrite read_loop_S in H.
  apply bind_Some_inv in H as [([d wf1] & w1 & H1 & H)|(e & H1 & ->)].
  2:{ destruct (readframes_run env wf 4000 w) as [r0 E].
      rewrite E in H1. injection H1 as _ <-.
      exists [EvReadframes 4000]. split; [done|].
      apply loop_post_fail;
        [by repeat constructor | by repeat constructor
        | apply prefix_nil | constructor]. }
  apply readframes_Ok in H1 as (Hd & -> & _ & ->).
  fold (chunk_size (wr_header wf)) in *.
  destruct (bool_decide (length d = 0%nat)) eqn:Hlen.
  { injection H as <- <-. exists [EvReadframes 4000]. split; [done|].
    apply loop_post_leave. rewrite <- Hd.
    apply bool_decide_eq_true in Hlen. by apply nil_length_inv. }
  apply bool_decide_eq_false in Hlen.
  assert (d <> []) as Hne by (by intros ->).
  assert (forall e evs0, Forall loop_event evs0 ->
            frames_asked evs0 = [] -> accepted evs0 = [] ->
            @loop_post (Rec C) (wr_header wf) (wr_rest wf) (length results)
              (EvReadframes 4000 :: EvAcceptWaveform d :: evs0) (Error e))
    as Hfail.
  { intros e evs0 F0 Ef Ea.
    assert (frames_asked (EvReadframes 4000 :: EvAcceptWaveform d :: evs0)
            = [4000]) as Ef' by (by rewrite <- Ef).
    assert (accepted (EvReadframes 4000 :: EvAcceptWaveform d :: evs0)
            = [d]) as Ea'.
    { change (accepted (EvReadframes 4000 :: EvAcceptWaveform d :: evs0))
        with (d :: accepted evs0). by rewrite Ea. }
    apply loop_post_fail; rewrite ?Ef', ?Ea'.
    - by repeat constructor.
    - by repeat constructor.
    - cbn [concat]. rewrite app_nil_r, Hd. apply prefix_take.
    - constructor; [|done]. split; [done|].
      rewrite Hd, length_take. lia. }
  apply bind_Some_inv in H as [([acc rec1] & w2 & H1 & H)|(e & H1 & ->)].
  2:{ unfold rec_AcceptWaveform in H1. rewrite emit_lift_run in H1.
      injection H1 as _ <-. eexists. split; [|by apply (Hfail e [])].
      cbn [trace]. by rewrite <- app_assoc. }
  unfold rec_AcceptWaveform in H1. rewrite emit_lift_run in H1.
  injection H1 as _ <-.
  destruct acc.
  - apply bind_Some_inv in H as [([s rec2] & w3 & H1 & H)|(e & H1 & ->)].
    2:{ unfold rec_Result in H1. rewrite emit_lift_run in H1.
        injection H1 as _ <-. eexists.
        split; [|apply (Hfail e [EvResult]); by repeat constructor].
        cbn [trace]. by rewrite <- !app_assoc. }
    unfold rec_Result in H1. rewrite emit_lift_run in H1.
    injection H1 as _ <-.
    apply bind_Some_inv in H as [(j & w4 & H1 & H)|(e & H1 & ->)].
    2:{ rewrite lift_run in H1. injection H1 as _ <-. eexists.
        split; [|apply (Hfail e [EvResult]); by repeat constructor].
        cbn [trace]. by rewrite <- !app_assoc. }
    rewrite lift_run in H1. injection H1 as _ <-.
    apply bind_Some_inv in H as [(t & w5 & H1 & H)|(e & H1 & ->)].
    2:{ rewrite lift_run in H1. injection H1 as _ <-. eexists.
        split; [|apply (Hfail e [EvResult]); by repeat constructor].
        cbn [trace]. by rewrite <- !app_assoc. }
    rewrite lift_run in H1. injection H1 as _ <-.
    apply IH in H as (evs & T & P). cbn [wr_header wr_rest trace] in *.
    exists (EvReadframes 4000 :: EvAcceptWaveform d :: [EvResult] ++ evs).
    split; [by rewrite T, <- !app_assoc|].
    apply (loop_post_step _ _ _ _ true); [done..|].
    by rewrite length_app in P.
  - apply IH in H as (evs & T & P). cbn [wr_header wr_rest trace] in *.
    exists (EvReadframes 4000 :: EvAcceptWaveform d :: [] ++ evs).
    split; [by rewrite T, <- !app_assoc|].
    apply (loop_post_step _ _ _ _ false); [done..|].
    by rewrite Nat.add_0_r.
Qed.

Lemma wave_open_Ok_world C env path w wf w' :
  wave_open C env path w = Some (Ok wf, w') ->
  w' = mkWorld (fs w) (trace w ++ [EvWaveOpen path]).
Proof.
  unfold wave_open. intros H.
  apply bind_Ok_inv in H as ([] & w1 & [= <-] & H).
  apply bind_Ok_inv in H as ([] & w2 & H1 & H).
  destruct (open_fault env); [done|]. injection H1 as <-.
  apply bind_Ok_inv in H as (m & w3 & [= <- <-] & H).
  cbn [fs] in H. destruct (fs w !! path) as [b|]; [|done].
  apply bind_Ok_inv in H as (h & w4 & H1 & [= _ <-]).
  by apply lift_Ok in H1 as (_ & ->).
Qed.

(** A recognition that completes: the transcoder returned 0, the file it
    left at the wav path was parsed, and the calls were made in this
    order. *)
Lemma recognise_Ok_spec C env tmp wav w results w' :
  recognise C env tmp wav w = Some (Ok results, w') ->
  exists proc b h evs rec res t,
    run C (ffmpeg_cmd tmp wav 16000) (fs w) = Ok (proc, fs w')
    /\ returncode proc = 0
    /\ fs w' !! wav = Some b /\ wave_parse C b = Ok h
    /\ emitted w w'
       = [EvRun (ffmpeg_cmd tmp wav 16000); EvWaveOpen wav;
          EvKaldiRecognizer (framerate h); EvSetWords true]
         ++ evs ++ [EvFinalResult]
    /\ results = res ++ [t]
    /\ loop_post h (wavdata h) 0 evs (Ok (rec : Rec C, res)).
Proof.
  unfold recognise. intros H.
  apply bind_Ok_inv in H as ([] & w1 & H1 & H).
  pose proof (convert_to_wav_trace _ _ _ _ _ _ _ H1) as T1.
  apply convert_to_wav_Ok in H1 as (proc & Hrun & Hrc).
  apply bind_Ok_inv in H as (wf & w2 & H2 & H).
  pose proof (wave_open_Ok_world _ _ _ _ _ _ H2) as ->.
  apply wave_open_Ok in H2 as (b & h & Hb & Hp & -> & _).
  apply bind_Ok_inv in H as (rec0 & w3 & H3 & H).
  apply emit_lift_Ok in H3 as (_ & ->).
  apply bind_Ok_inv in H as (rec1 & w4 & H4 & H).
  apply emit_lift_Ok in H4 as (_ & ->).
  apply bind_Ok_inv in H as ([rec2 res] & w5 & H5 & H).
  pose proof (keeps_fs_read_loop _ _ _ _ _ _ _ _ _ H5) as Hfs.
  apply read_loop_post in H5 as (evs & T5 & P).
  apply bind_Ok_inv in H as ([s rec3] & w6 & H6 & H).
  apply emit_lift_Ok in H6 as (_ & ->).
  apply bind_Ok_inv in H as (fin & w7 & H7 & H).
  apply lift_Ok in H7 as (_ & ->).
  apply bind_Ok_inv in H as (t & w8 & H8 & [= <- <-]).
  apply lift_Ok in H8 as (_ & ->).
  cbn [fs trace wr_header wr_rest getframerate length] in *.
  exists proc, b, h, evs, rec2, res, t.
  rewrite Hfs.
  split; [done|]. split; [done|]. split; [done|]. split; [done|].
  split; [|split; [done | exact P]].
  apply emitted_app. rewrite T5, T1. by rewrite <- !app_assoc.
Qed.

Lemma accepted_of_run cmd path rate b evs :
  accepted ([EvRun cmd; EvWaveOpen path; EvKaldiRecognizer rate; EvSetWords b]
            ++ evs ++ [EvFinalResult])
  = accepted evs.
Proof.
  change (accepted (evs ++ [EvFinalResult]) = accepted evs).
  unfold accepted. rewrite omap_app. apply app_nil_r.
Qed.

(** X8.  When recognition completes, the recogniser was given the whole
    sample data of the wav file the transcoder left, in order, nothing
    dropped and nothing repeated, in chunks that are never empty and of 4000
    frames at most. *)
Theorem recogniser_hears_whole_audio C env tmp wav w results w' :
  recognise C env tmp wav w = Some (Ok results, w') ->
  exists b h,
    fs w' !! wav = Some b /\ wave_parse C b = Ok h
    /\ Forall (chunk_ok h) (accepted (emitted w w'))
    /\ ((0 < framesize h)%nat ->
        concat (accepted (emitted w w')) = wavdata h).
Proof.
  intros H.
  apply recognise_Ok_spec in H
    as (proc & b & h & evs & rec & res & t & _ & _ & Hb & Hp & -> & _ & P).
  destruct P as (_ & _ & _ & F & Hok).
  destruct (Hok rec res eq_refl) as (_ & _ & Hall).
  exists b, h. rewrite accepted_of_run. by repeat split.
Qed.

(** X9.  When recognition completes, the calls were made in this order:
    the transcoder, [wave.open] on the wav path, a recogniser constructed
    with the frame rate read from that file, [SetWords(True)], then the loop,
    then [FinalResult] once, last.  The loop always asks for 4000 frames,
    reads once more than it has chunks, and the handler has collected one
    fragment for every [Result] it asked, plus the final one. *)
Theorem recognition_protocol C env tmp wav w results w' :
  recognise C env tmp wav w = Some (Ok results, w') ->
  exists b h evs,
    fs w' !! wav = Some b /\ wave_parse C b = Ok h
    /\ emitted w w'
       = [EvRun (ffmpeg_cmd tmp wav 16000); EvWaveOpen wav;
          EvKaldiRecognizer (framerate h); EvSetWords true]
         ++ evs ++ [EvFinalResult]
    /\ Forall loop_event evs
    /\ Forall (fun k => k = 4000) (frames_asked evs)
    /\ length (frames_asked evs) = S (length (accepted evs))
    /\ length results = S (results_asked evs).
Proof.
  intros H.
  apply recognise_Ok_spec in H
    as (proc & b & h & evs & rec & res & t & _ & _ & Hb & Hp & E & -> & P).
  destruct P as (F1 & F2 & _ & _ & Hok).
  destruct (Hok rec res eq_refl) as (L1 & L2 & _).
  exists b, h, evs. repeat split; try done.
  rewrite length_app, L2. cbn. lia.
Qed.

Lemma recogniser_hears_whole_audio_witness :
  let C := scripted [lit "a"; lit "b"; lit "c"] in
  let env := quiet_env "abc" "def" in
  let payload := replicate 4001 Byte.x07 in
  let w0 := final_world (temp_files env (mkFile (lit "clip.webm") payload)
                           empty_world) in
  let r := recognise C env (lit "/tmp/tmpabc.webm") (lit "/tmp/tmpdef.wav")
             w0 in
  r = Some (Ok [PStr (lit "a"); PStr (lit "b"); PStr (lit "c")],
            final_world r)
  /\ List.map length (accepted (emitted w0 (final_world r)))
     = [4000%nat; 1%nat]
  /\ exists b h,
       fs (final_world r) !! lit "/tmp/tmpdef.wav" = Some b
       /\ wave_parse C b = Ok h
       /\ Forall (chunk_ok h) (accepted (emitted w0 (final_world r))).
Proof.
  intros C env payload w0 r.
  assert (r = Some (Ok [PStr (lit "a"); PStr (lit "b"); PStr (lit "c")],
                    final_world r)) as H1 by (vm_compute; reflexivity).
  split; [exact H1|]. split; [vm_compute; reflexivity|].
  destruct (recogniser_hears_whole_audio C env _ _ _ _ _ H1)
    as (b & h & Hb & Hp & F & _).
  exists b, h. split; [exact Hb|]. split; [exact Hp | exact F].
Defined.

Lemma recognition_protocol_witness :
  let C := scripted [lit "a"; lit "b"; lit "c"] in
  let env := quiet_env "abc" "def" in
  let payload := replicate 4001 Byte.x07 in
  let w0 := final_world (temp_files env (mkFile (lit "clip.webm") payload)
                           empty_world) in
  let r := recognise C env (lit "/tmp/tmpabc.webm") (lit "/tmp/tmpdef.wav")
             w0 in
  r = Some (Ok [PStr (lit "a"); PStr (lit "b"); PStr (lit "c")],
            final_world r)
  /\ frames_asked (emitted w0 (final_world r)) = [4000; 4000; 4000]
  /\ exists evs,
       Forall loop_event evs
       /\ length (frames_asked evs) = S (length (accepted evs))
       /\ 3%nat = S (results_asked evs).
Proof.
  intros C env payload w0 r.
  assert (r = Some (Ok [PStr (lit "a"); PStr (lit "b"); PStr (lit "c")],
                    final_world r)) as H1 by (vm_compute; reflexivity).
  split; [exact H1|]. split; [vm_compute; reflexivity|].
  destruct (recognition_protocol C env _ _ _ _ _ H1)
    as (b & h & evs & _ & _ & _ & F & _ & L1 & L2).
  exists evs. split; [exact F|]. split; [exact L1 | exact L2].
Defined.

(** ** Values that are not strings *)

Lemma as_strs_truthy_strings results :
  Forall (fun v => truthy v = true -> is_str v = true) results ->
  as_strs (List.filter truthy results)
  = Some (List.filter (fun s => negb (bool_decide (s = [])))
            (strs_of results)).
Proof.
  induction 1 as [|v l Hv _ IH]; [done|].
  destruct v as [s|d|b].
  - change (strs_of (PStr s :: l)) with (s :: strs_of l).
    cbn [List.filter truthy].
    destruct (negb (bool_decide (s = []))); [|done].
    cbn [as_strs]. by rewrite IH.
  - change (strs_of (PDict d :: l)) with (strs_of l).
    cbn [List.filter]. destruct (truthy (PDict d)) eqn:E; [|done].
    by specialize (Hv eq_refl).
  - change (strs_of (POther b :: l)) with (strs_of l).
    cbn [List.filter]. destruct (truthy (POther b)) eqn:E; [|done].
    by specialize (Hv eq_refl).
Qed.

Lemma as_strs_truthy_other results :
  Exists (fun v => truthy v = true /\ is_str v = false) results ->
  as_strs (List.filter truthy results) = None.
Proof.
  induction 1 as [v l [Ht Hs]|v l _ IH]; cbn [List.filter].
  - rewrite Ht. by destruct v.
  - destruct (truthy v); [|done]. destruct v; [|done..].
    cbn [as_strs]. by rewrite IH.
Qed.

(** X10.  A fragment that is not truthy is dropped without an error,
    whatever its type: a [text] that is null, zero, false, an empty list or
    an empty object counts like an empty string.  When every truthy fragment
    is a string, the response is 200 and its text is made of the non-empty
    strings alone. *)
Theorem falsy_text_is_dropped C env request f w tmp wav w0 results w1 :
  getitem (lit "file") (files request) = Ok f ->
  temp_files env f w = Some (Ok (tmp, wav), w0) ->
  recognise C env tmp wav w0 = Some (Ok results, w1) ->
  Forall (fun v => truthy v = true -> is_str v = true) results ->
  exists w',
    transcribe C env request w
    = Some (Ok (mkResponse
                  (jsonify [(lit "text", PStr (code_text (strs_of results)))])
                  200), w').
Proof.
  intros Hf Ht Hr Hres.
  assert (try_body C env tmp wav w0
          = Some (Ok (mkResponse
                        (jsonify [(lit "text",
                                   PStr (code_text (strs_of results)))])
                        200), w1)) as Hb.
  { unfold try_body. rewrite (bind_Ok _ _ _ _ _ Hr).
    unfold str_join. by rewrite as_strs_truthy_strings. }
  destruct (transcribe_from_try_body C env _ _ _ _ _ _ _ _ Hf Ht Hb)
    as (w2 & E & _).
  by exists w2.
Qed.

(** X11.  A truthy fragment that is not a string (a [text] that is a number
    other than zero, [true], a non-empty list or object) makes the join of
    line 78 raise, and the request is answered with status 500 although
    recognition itself completed. *)
Theorem non_string_text_is_500 C env request f w tmp wav w0 results w1 :
  getitem (lit "file") (files request) = Ok f ->
  temp_files env f w = Some (Ok (tmp, wav), w0) ->
  recognise C env tmp wav w0 = Some (Ok results, w1) ->
  Exists (fun v => truthy v = true /\ is_str v = false) results ->
  exists msg w',
    transcribe C env request w
    = Some (Ok (mkResponse (jsonify [(lit "error", PStr msg)]) 500), w').
Proof.
  intros Hf Ht Hr Hres.
  assert (try_body C env tmp wav w0 = Some (Error TypeError_join, w1)) as Hb.
  { unfold try_body. rewrite (bind_Ok _ _ _ _ _ Hr).
    unfold str_join. by rewrite as_strs_truthy_other. }
  destruct (transcribe_from_try_body C env _ _ _ _ _ _ _ _ Hf Ht Hb)
    as (w2 & E & _).
  by exists (exn_str TypeError_join), w2.
Qed.

Lemma falsy_text_is_dropped_witness :
  let C := literal_engine (POther false) in
  let env := quiet_env "abc" "def" in
  let f := mkFile (lit "clip.webm") [Byte.x52] in
  let w0 := final_world (temp_files env f empty_world) in
  let r := recognise C env (lit "/tmp/tmpabc.webm") (lit "/tmp/tmpdef.wav")
             w0 in
  getitem (lit "file") (files (mkRequest [(lit "file", f)])) = Ok f
  /\ temp_files env f empty_world
     = Some (Ok (lit "/tmp/tmpabc.webm", lit "/tmp/tmpdef.wav"), w0)
  /\ r = Some (Ok [POther false; POther false], final_world r)
  /\ exists w',
       transcribe C env (mkRequest [(lit "file", f)]) empty_world
       = Some (Ok (mkResponse (jsonify [(lit "text", PStr [])]) 200), w').
Proof.
  intros C env f w0 r.
  assert (getitem (lit "file") (files (mkRequest [(lit "file", f)])) = Ok f)
    as H1 by (vm_compute; reflexivity).
  assert (temp_files env f empty_world
          = Some (Ok (lit "/tmp/tmpabc.webm", lit "/tmp/tmpdef.wav"), w0))
    as H2 by (vm_compute; reflexivity).
  assert (r = Some (Ok [POther false; POther false], final_world r)) as H3
    by (vm_compute; reflexivity).
  split; [exact H1|]. split; [exact H2|]. split; [exact H3|].
  apply (falsy_text_is_dropped C env _ _ _ _ _ _ _ _ H1 H2 H3).
  repeat constructor; discriminate.
Defined.

Lemma non_string_text_is_500_witness :
  let C := literal_engine (POther true) in
  let env := quiet_env "abc" "def" in
  let f := mkFile (lit "clip.webm") [Byte.x52] in
  let w0 := final_world (temp_files env f empty_world) in
  let r := recognise C env (lit "/tmp/tmpabc.webm") (lit "/tmp/tmpdef.wav")
             w0 in
  getitem (lit "file") (files (mkRequest [(lit "file", f)])) = Ok f
  /\ temp_files env f empty_world
     = Some (Ok (lit "/tmp/tmpabc.webm", lit "/tmp/tmpdef.wav"), w0)
  /\ r = Some (Ok [POther true; POther true], final_world r)
  /\ exists msg w',
       transcribe C env (mkRequest [(lit "file", f)]) empty_world
       = Some (Ok (mkResponse (jsonify [(lit "error", PStr msg)]) 500), w').
Proof.
  intros C env f w0 r.
  assert (getitem (lit "file") (files (mkRequest [(lit "file", f)])) = Ok f)
    as H1 by (vm_compute; reflexivity).
  assert (temp_files env f empty_world
          = Some (Ok (lit "/tmp/tmpabc.webm", lit "/tmp/tmpdef.wav"), w0))
    as H2 by (vm_compute; reflexivity).
  assert (r = Some (Ok [POther true; POther true], final_world r)) as H3
    by (vm_compute; reflexivity).
  split; [exact H1|]. split; [exact H2|]. split; [exact H3|].
  apply (non_string_text_is_500 C env _ _ _ _ _ _ _ _ H1 H2 H3).
  by constructor.
Defined.

(** ** The start of the process *)

Lemma lstrip_sep_id l : head l <> Some sep_char -> lstrip_sep l = l.
Proof.
  destruct l as [|c l]; [done|]. cbn. intros H.
  destruct (N.eqb_spec c sep_char) as [->|]; [by destruct H|done].
Qed.

Lemma lstrip_sep_head l : head (lstrip_sep l) <> Some sep_char.
Proof.
  induction l as [|c l IH]; [done|]. cbn.
  destruct (N.eqb_spec c sep_char) as [->|Hne]; [done|].
  cbn. congruence.
Qed.

Lemma lstrip_sep_nil l : lstrip_sep l = [] -> Forall (fun c => sep_char = c) l.
Proof.
  induction l as [|c l IH]; [done|]. cbn.
  destruct (N.eqb_spec c sep_char) as [->|Hne]; [|done].
  intros H. constructor; auto.
Qed.

Lemma rstrip_sep_last l : last (rstrip_sep l) <> Some sep_char.
Proof. unfold rstrip_sep. rewrite last_reverse. apply lstrip_sep_head. Qed.

Lemma rstrip_sep_nil l : rstrip_sep l = [] -> l = replicate (length l) sep_char.
Proof.
  unfold rstrip_sep. intros H.
  apply (f_equal reverse) in H. rewrite reverse_involutive in H. cbn in H.
  apply lstrip_sep_nil in H. symmetry. apply replicate_as_Forall.
  split; [done|]. apply Forall_reverse in H.
  by rewrite reverse_involutive in H.
Qed.

Lemma rstrip_sep_snoc d :
  last d <> Some sep_char -> rstrip_sep (d ++ [sep_char]) = d.
Proof.
  intros H. unfold rstrip_sep. rewrite reverse_snoc. cbn.
  rewrite lstrip_sep_id; [apply reverse_involutive|].
  by rewrite head_reverse.
Qed.

Lemma rfind_app c l1 l2 :
  c ∉ l2 -> rfind c (l1 ++ c :: l2) = Z.of_nat (length l1).
Proof.
  intros Hn. unfold rfind.
  destruct (rfind_from_spec c (l1 ++ c :: l2) 0 (-1))
    as [[Hc _]|(k & -> & Hk & Hlast)].
  { destruct Hc. apply elem_of_app. right. apply list_elem_of_here. }
  destruct (Nat.lt_trichotomy k (length l1)) as [Hlt|[->|Hgt]]; [|lia|].
  - destruct (Hlast (length l1) Hlt). by rewrite list_lookup_middle.
  - rewrite lookup_app_r in Hk by lia.
    destruct (k - length l1)%nat as [|j] eqn:E; [lia|]. cbn in Hk.
    destruct Hn. by eapply list_elem_of_lookup_2.
Qed.

Lemma dirname_app_sep q name :
  sep_char ∉ name ->
  dirname (q ++ sep_char :: name)
  = if negb (bool_decide (q ++ [sep_char]
                          = replicate (length (q ++ [sep_char])) sep_char))
    then rstrip_sep (q ++ [sep_char])
    else q ++ [sep_char].
Proof.
  intros Hn. unfold dirname. rewrite (rfind_app _ _ _ Hn).
  replace (Z.to_nat (Z.of_nat (length q) + 1)) with (S (length q)) by lia.
  assert (take (S (length q)) (q ++ sep_char :: name) = q ++ [sep_char]) as ->.
  { change (q ++ sep_char :: name) with (q ++ [sep_char] ++ name).
    rewrite app_assoc. apply take_app_length'. rewrite length_app. cbn. lia. }
  rewrite (bool_decide_eq_false_2 (q ++ [sep_char] = [])); [done|].
  by destruct q.
Qed.

(** What [dirname] returns is empty, or made of separators only, or it does
    not end with a separator. *)
Lemma dirname_shape s :
  dirname s = []
  \/ dirname s = replicate (length (dirname s)) sep_char
  \/ last (dirname s) <> Some sep_char.
Proof.
  unfold dirname.
  set (hd := take (Z.to_nat (rfind sep_char s + 1)) s).
  destruct (bool_decide (hd = [])) eqn:E1; cbn [negb andb].
  { left. by apply bool_decide_eq_true in E1. }
  destruct (bool_decide (hd = replicate (length hd) sep_char)) eqn:E2;
    cbn [negb].
  { right. left. by apply bool_decide_eq_true in E2. }
  right. right. apply rstrip_sep_last.
Qed.

(** X14.  Without [VOSK_MODEL_PATH] in the environment, the model is looked
    for in a directory named [model] beside the script: the path chosen is
    in the directory of [__file__] and ends with [model]; and the process
    exits, naming that path, unless it exists. *)
Theorem model_is_beside_script P :
  environ P !! lit "VOSK_MODEL_PATH" = None ->
  dirname (MODEL_PATH P) = dirname (script P)
  /\ lit "model" `suffix_of` MODEL_PATH P
  /\ startup P
     = if path_exists P (MODEL_PATH P) then LoadModel (MODEL_PATH P)
       else SystemExit
              (lit "VOSK model not found at " ++ MODEL_PATH P
               ++ lit ". Set VOSK_MODEL_PATH or place model in server/model").
Proof.
  intros Henv. unfold startup, MODEL_PATH. rewrite Henv. cbn [default].
  split; [|split; [|by destruct (path_exists P _)]].
  - assert (sep_char ∉ lit "model") as Hm.
    { apply (bool_decide_unpack _). by vm_compute. }
    unfold path_join.
    rewrite (bool_decide_eq_false_2 (head (lit "model") = Some sep_char))
      by done.
    destruct (dirname_shape (script P)) as [E|[E|E]].
    + rewrite E. by vm_compute.
    + destruct (dirname (script P)) as [|c d] eqn:Ed using rev_ind;
        [by vm_compute|]. clear IHd.
      assert (c = sep_char) as ->.
      { symmetry in E. apply replicate_as_Forall in E as [_ E].
        apply Forall_app in E as [_ E]. by inversion E. }
      rewrite (bool_decide_eq_false_2 (d ++ [sep_char] = []))
        by (by destruct d).
      rewrite (bool_decide_eq_true_2 (last (d ++ [sep_char]) = Some sep_char))
        by apply last_snoc.
      cbn [orb]. rewrite <- app_assoc. cbn [app].
      rewrite (dirname_app_sep _ _ Hm).
      by rewrite (bool_decide_eq_true_2 _ E).
    + destruct (decide (dirname (script P) = [])) as [E0|E0];
        [rewrite E0; by vm_compute|].
      rewrite (bool_decide_eq_false_2 _ E0).
      rewrite (bool_decide_eq_false_2 _ E). cbn [orb app].
      rewrite (dirname_app_sep _ _ Hm).
      rewrite bool_decide_eq_false_2; [by apply rstrip_sep_snoc|].
      intros Hrep. symmetry in Hrep.
      apply replicate_as_Forall in Hrep as [_ Hrep].
      apply Forall_app in Hrep as [Hrep _].
      destruct (dirname (script P)) as [|c d] using rev_ind; [done|].
      apply Forall_app in Hrep as [_ Hrep]. inversion Hrep; subst.
      by rewrite last_snoc in E.
  - unfold path_join. repeat case_match.
    + by exists [].
    + by eexists.
    + exists (dirname (script P) ++ [sep_char]). by rewrite <- app_assoc.
Qed.

Lemma model_is_beside_script_witness :
  let P := mkProcess ∅ (lit "/srv/app/server/vosk_server.py")
             (fun _ => false) in
  environ P !! lit "VOSK_MODEL_PATH" = None
  /\ MODEL_PATH P = lit "/srv/app/server/model"
  /\ dirname (MODEL_PATH P) = dirname (script P)
  /\ startup P
     = SystemExit
         (lit "VOSK model not found at /srv/app/server/model"
          ++ lit ". Set VOSK_MODEL_PATH or place model in server/model").
Proof.
  intros P.
  assert (environ P !! lit "VOSK_MODEL_PATH" = None) as H1 by reflexivity.
  split; [exact H1|]. split; [vm_compute; reflexivity|].
  destruct (model_is_beside_script P H1) as (Hd & _ & Hs).
  split; [exact Hd|]. rewrite Hs. vm_compute. reflexivity.
Defined.

(** X15.  A response with status 200 is only given when the transcoder
    exited with status 0 and the file it left at the wav path was parsed as
    a wave file. *)
Theorem success_means_converted C env request f w tmp wav w0 resp w' :
  getitem (lit "file") (files request) = Ok f ->
  temp_files env f w = Some (Ok (tmp, wav), w0) ->
  transcribe C env request w = Some (Ok resp, w') ->
  status resp = 200 ->
  exists proc m' b h,
    run C (ffmpeg_cmd tmp wav 16000) (fs w0) = Ok (proc, m')
    /\ returncode proc = 0
    /\ m' !! wav = Some b /\ wave_parse C b = Ok h.
Proof.
  intros Hf Ht H Hs.
  apply (transcribe_Ok_inv _ _ _ _ _ _ _ Hf) in H
    as (tmp' & wav' & w0' & r & w1 & Ht' & Hb & ->).
  rewrite Ht in Ht'. injection Ht' as <- <- <-.
  destruct r as [resp|e]; [|done].
  apply try_body_Ok in Hb as (res & j & Hr & _).
  apply recognise_Ok_spec in Hr
    as (proc & b & h & _ & _ & _ & _ & Hrun & Hrc & Hb & Hp & _).
  by exists proc, (fs w1), b, h.
Qed.

Lemma success_means_converted_witness :
  let C := scripted [lit "ok"] in
  let env := quiet_env "abc" "def" in
  let f := mkFile (lit "clip.webm") [Byte.x52] in
  let w0 := final_world (temp_files env f empty_world) in
  let r := transcribe C env (mkRequest [(lit "file", f)]) empty_world in
  getitem (lit "file") (files (mkRequest [(lit "file", f)])) = Ok f
  /\ temp_files env f empty_world
     = Some (Ok (lit "/tmp/tmpabc.webm", lit "/tmp/tmpdef.wav"), w0)
  /\ r = Some (Ok (mkResponse (jsonify [(lit "text", PStr (lit "ok"))]) 200),
               final_world r)
  /\ exists proc m',
       run C (ffmpeg_cmd (lit "/tmp/tmpabc.webm") (lit "/tmp/tmpdef.wav")
                16000) (fs w0) = Ok (proc, m')
       /\ returncode proc = 0.
Proof.
  intros C env f w0 r.
  assert (getitem (lit "file") (files (mkRequest [(lit "file", f)])) = Ok f)
    as H1 by (vm_compute; reflexivity).
  assert (temp_files env f empty_world
          = Some (Ok (lit "/tmp/tmpabc.webm", lit "/tmp/tmpdef.wav"), w0))
    as H2 by (vm_compute; reflexivity).
  assert (r = Some (Ok (mkResponse (jsonify [(lit "text", PStr (lit "ok"))])
                          200), final_world r)) as H3
    by (vm_compute; reflexivity).
  split; [exact H1|]. split; [exact H2|]. split; [exact H3|].
  destruct (success_means_converted C env _ _ _ _ _ _ _ _ H1 H2 H3 eq_refl)
    as (proc & m' & b & h & Hrun & Hrc & _).
  exists proc, m'. split; [exact Hrun | exact Hrc].
Defined.

Lemma length_concat_chunks h (l : list (list Byte.byte)) :
  Forall (chunk_ok h) l -> (length l <= length (concat l))%nat.
Proof.
  induction 1 as [|d l [Hd _] _ IH]; [done|].
  cbn [concat length]. rewrite length_app.
  destruct d; [done|]. cbn [length]. lia.
Qed.

(** X16.  The loop of a recognition that completes reads the wave file at
    most once for every byte of its sample data, and once more: the
    [while True] ends on any file. *)
Theorem loop_reads_are_bounded C env tmp wav w results w' :
  recognise C env tmp wav w = Some (Ok results, w') ->
  exists b h,
    fs w' !! wav = Some b /\ wave_parse C b = Ok h
    /\ (length (frames_asked (emitted w w')) <= S (length (wavdata h)))%nat.
Proof.
  intros H.
  apply recognise_Ok_spec in H
    as (proc & b & h & evs & rec & res & t & _ & _ & Hb & Hp & -> & _ & P).
  destruct P as (_ & _ & Hpre & F & Hok).
  destruct (Hok rec res eq_refl) as (L1 & _ & _).
  exists b, h. split; [done|]. split; [done|].
  assert (frames_asked
            ([EvRun (ffmpeg_cmd tmp wav 16000); EvWaveOpen wav;
              EvKaldiRecognizer (framerate h); EvSetWords true]
             ++ evs ++ [EvFinalResult]) = frames_asked evs) as ->.
  { change (frames_asked (evs ++ [EvFinalResult]) = frames_asked evs).
    unfold frames_asked. rewrite omap_app. apply app_nil_r. }
  rewrite L1. apply le_n_S.
  etrans; [by apply (length_concat_chunks h)|].
  by apply prefix_length.
Qed.

Lemma loop_reads_are_bounded_witness :
  let C := scripted [lit "a"; lit "b"; lit "c"] in
  let env := quiet_env "abc" "def" in
  let payload := replicate 4001 Byte.x07 in
  let w0 := final_world (temp_files env (mkFile (lit "clip.webm") payload)
                           empty_world) in
  let r := recognise C env (lit "/tmp/tmpabc.webm") (lit "/tmp/tmpdef.wav")
             w0 in
  r = Some (Ok [PStr (lit "a"); PStr (lit "b"); PStr (lit "c")],
            final_world r)
  /\ length (frames_asked (emitted w0 (final_world r))) = 3%nat
  /\ exists b h,
       fs (final_world r) !! lit "/tmp/tmpdef.wav" = Some b
       /\ wave_parse C b = Ok h
       /\ (length (frames_asked (emitted w0 (final_world r)))
           <= S (length (wavdata h)))%nat.
Proof.
  intros C env payload w0 r.
  assert (r = Some (Ok [PStr (lit "a"); PStr (lit "b"); PStr (lit "c")],
                    final_world r)) as H1 by (vm_compute; reflexivity).
  split; [exact H1|]. split; [vm_compute; reflexivity|].
  exact (loop_reads_are_bounded C env _ _ _ _ _ H1).
Defined.

(** ** Two requests with the same audio and the same extension *)

(** The extension of a temp name is the suffix asked for: the random part
    holds no path separator, and the [tmp] before it is not a dot. *)
Lemma splitext_temp_name env tok rest :
  sep_char ∉ tok -> sep_char ∉ rest -> extsep_char ∉ rest ->
  (splitext (temp_name env tok (extsep_char :: rest))).2
  = extsep_char :: rest.
Proof.
  intros Ht Hs Hd. unfold temp_name.
  set (dir := tempdir env).
  set (pre := dir ++ lit "/tmp" ++ tok).
  assert (dir ++ lit "/tmp" ++ tok ++ extsep_char :: rest
          = pre ++ extsep_char :: rest) as Ep.
  { unfold pre. by rewrite <- !app_assoc. }
  assert (dir ++ lit "/tmp" ++ tok ++ extsep_char :: rest
          = dir ++ sep_char :: (lit "tmp" ++ tok ++ extsep_char :: rest))
    as Es by done.
  assert (sep_char ∉ lit "tmp" ++ tok ++ extsep_char :: rest) as Hsep.
  { rewrite !not_elem_of_app, not_elem_of_cons.
    split; [|split; [done|split; [done|done]]].
    apply (bool_decide_unpack _). by vm_compute. }
  set (name := dir ++ lit "/tmp" ++ tok ++ extsep_char :: rest) in *.
  assert (rfind sep_char name = Z.of_nat (length dir)) as Rs.
  { rewrite Es. by apply rfind_app. }
  assert (rfind extsep_char name = Z.of_nat (length pre)) as Rd.
  { rewrite Ep. by apply rfind_app. }
  assert (length pre = (length dir + S (S (S (S (length tok)))))%nat) as Lp.
  { unfold pre. by rewrite !length_app. }
  assert (name !! S (length dir) = Some 116%N) as Hl.
  { rewrite Es. rewrite lookup_app_r by lia.
    by replace (S (length dir) - length dir)%nat with 1%nat by lia. }
  unfold splitext. rewrite Rs, Rd.
  replace (Z.to_nat (Z.of_nat (length pre) - (Z.of_nat (length dir) + 1)))
    with (S (length tok + 2)) by lia.
  cbn [has_non_dot].
  replace (Z.to_nat (Z.of_nat (length dir) + 1)) with (S (length dir)) by lia.
  rewrite Hl.
  assert ((Z.of_nat (length pre) >? Z.of_nat (length dir)) = true) as ->.
  { apply Z.gtb_lt. lia. }
  change (116 =? extsep_char)%N with false.
  cbn [andb negb snd]. rewrite Nat2Z.id, Ep. apply drop_app_length.
Qed.

(** The suffix of the upload's temp file is its extension. *)
Lemma splitext_upload_temp_name env tok name :
  sep_char ∉ tok ->
  let sfx := str_or (splitext name).2 (lit ".tmp") in
  (splitext (temp_name env tok sfx)).2 = sfx.
Proof.
  intros Ht sfx. unfold sfx, str_or.
  destruct (splitext_ext name) as [->|(rest & -> & Hs & Hd)].
  - rewrite bool_decide_eq_true_2 by done.
    change (lit ".tmp") with (extsep_char :: lit "tmp").
    apply splitext_temp_name; [done|..];
      apply (bool_decide_unpack _); by vm_compute.
  - rewrite bool_decide_eq_false_2 by done.
    by apply splitext_temp_name.
Qed.

(** C7, at a counterexample.  This transcoder is a function of its inputs,
    and it picks the demuxer from the extension of the input path, which
    line 55 takes from the declared filename.  The same two bytes uploaded as
    [memo.webm] and as [memo.ogg], with the same temp names but for the
    extension, get two transcripts that differ. *)
Lemma extension_changes_the_text :
  let C := by_extension in
  let env := quiet_env "abc" "def" in
  let payload := [Byte.x68; Byte.x69] in
  content (mkFile (lit "memo.webm") payload)
  = content (mkFile (lit "memo.ogg") payload)
  /\ outcome (transcribe C env (upload "memo.webm" payload) empty_world)
     = Some (Ok (mkResponse (jsonify [(lit "text", PStr (lit "hi"))]) 200))
  /\ outcome (transcribe C env (upload "memo.ogg" payload) empty_world)
     = Some (Ok (mkResponse (jsonify [(lit "text", PStr (lit "ih"))]) 200))
  /\ lit "hi" <> lit "ih".
Proof.
  intros C env payload.
  split; [reflexivity|].
  split; [vm_compute; reflexivity|].
  split; [vm_compute; reflexivity|].
  vm_compute. discriminate.
Qed.

(** C7, as amended.  Take the collaborators as functions of their inputs,
    the inputs of the transcoder being the content of the input file and the
    extension of its name.  Two requests that carry the same bytes under
    filenames with the same extension (with any temp directories and random
    parts of the temp names, which hold no path separator, as [tempfile]
    makes them, and on any disks) and are both answered with a transcript are
    answered with the same transcript. *)
Theorem same_audio_same_extension_same_text
    C env1 env2 request1 request2 f1 f2 w1 w2 t1 t2 w1' w2' :
  transcoder_reads_content_and_extension C ->
  (forall tok, tmp_token env1 = Ok tok -> sep_char ∉ tok) ->
  (forall tok, tmp_token env2 = Ok tok -> sep_char ∉ tok) ->
  getitem (lit "file") (files request1) = Ok f1 ->
  getitem (lit "file") (files request2) = Ok f2 ->
  content f1 = content f2 ->
  (splitext (filename f1)).2 = (splitext (filename f2)).2 ->
  transcribe C env1 request1 w1
  = Some (Ok (mkResponse (jsonify [(lit "text", PStr t1)]) 200), w1') ->
  transcribe C env2 request2 w2
  = Some (Ok (mkResponse (jsonify [(lit "text", PStr t2)]) 200), w2') ->
  t1 = t2.
Proof.
  intros Htr Hk1 Hk2 Hf1 Hf2 Hc Hx H1 H2.
  apply (transcribe_Ok_inv _ _ _ _ _ _ _ Hf1) in H1
    as (tmp1 & wav1 & wa & r1 & wa' & Ht1 & Hb1 & Hr1).
  apply (transcribe_Ok_inv _ _ _ _ _ _ _ Hf2) in H2
    as (tmp2 & wav2 & wb & r2 & wb' & Ht2 & Hb2 & Hr2).
  destruct r1 as [resp1|]; [|done]. destruct r2 as [resp2|]; [|done].
  cbn [response_of] in Hr1, Hr2. subst resp1 resp2.
  apply try_body_Ok in Hb1 as (res1 & j1 & Hrec1 & Hj1 & [= ->]).
  apply try_body_Ok in Hb2 as (res2 & j2 & Hrec2 & Hj2 & [= ->]).
  destruct (temp_files_Ok _ _ _ _ _ _ Ht1)
    as (tok1 & _ & _ & Htok1 & _ & Hn1 & _ & Hne1 & Hfs1 & _).
  destruct (temp_files_Ok _ _ _ _ _ _ Ht2)
    as (tok2 & _ & _ & Htok2 & _ & Hn2 & _ & Hne2 & Hfs2 & _).
  assert (res1 = res2) as <-.
  { eapply (recognise_same C env1 env2 tmp1 wav1 tmp2 wav2 (content f1));
      eauto.
    - rewrite Hn1, Hn2.
      rewrite (splitext_upload_temp_name env1 tok1 _ (Hk1 _ Htok1)).
      rewrite (splitext_upload_temp_name env2 tok2 _ (Hk2 _ Htok2)).
      by rewrite Hx.
    - rewrite Hfs1, lookup_insert_ne by done. apply lookup_insert_eq.
    - rewrite Hfs2, lookup_insert_ne by done. rewrite Hc.
      apply lookup_insert_eq. }
  rewrite Hj1 in Hj2. by injection Hj2 as <-.
Qed.

Lemma ext_transcoder_reads_content_and_extension :
  transcoder_reads_content_and_extension by_extension.
Proof.
  exists (fun ext c =>
            (0, Some (if bool_decide (ext = lit ".ogg")
                      then reverse c else c))).
  intros i o rate m c proc m' Hi Hne. cbn [run by_extension].
  unfold ext_transcoder. cbn [lookup list_lookup]. rewrite Hi.
  intros [= <- <-]. cbn [returncode fst snd].
  by rewrite lookup_insert_eq.
Qed.

Lemma same_audio_same_extension_same_text_witness :
  let C := by_extension in
  let r1 := transcribe C (quiet_env "abc" "def")
              (upload "memo.ogg" [Byte.x68; Byte.x69]) empty_world in
  let r2 := transcribe C (quiet_env "xyz" "uvw")
              (upload "note.ogg" [Byte.x68; Byte.x69]) empty_world in
  r1 = Some (Ok (mkResponse (jsonify [(lit "text", PStr (lit "ih"))]) 200),
             final_world r1)
  /\ r2 = Some (Ok (mkResponse (jsonify [(lit "text", PStr (lit "ih"))]) 200),
                final_world r2)
  /\ final_trace r1 <> final_trace r2
  /\ lit "ih" = lit "ih".
Proof.
  intros C r1 r2.
  assert (r1 = Some (Ok (mkResponse (jsonify [(lit "text", PStr (lit "ih"))])
                           200), final_world r1)) as H1
    by (vm_compute; reflexivity).
  assert (r2 = Some (Ok (mkResponse (jsonify [(lit "text", PStr (lit "ih"))])
                           200), final_world r2)) as H2
    by (vm_compute; reflexivity).
  split; [exact H1|]. split; [exact H2|].
  split; [vm_compute; discriminate|].
  refine (same_audio_same_extension_same_text C
            (quiet_env "abc" "def") (quiet_env "xyz" "uvw")
            (upload "memo.ogg" [Byte.x68; Byte.x69])
            (upload "note.ogg" [Byte.x68; Byte.x69])
            (mkFile (lit "memo.ogg") [Byte.x68; Byte.x69])
            (mkFile (lit "note.ogg") [Byte.x68; Byte.x69])
            empty_world empty_world (lit "ih") (lit "ih")
            (final_world r1) (final_world r2)
            ext_transcoder_reads_content_and_extension
            _ _
            ltac:(vm_compute; reflexivity) ltac:(vm_compute; reflexivity)
            ltac:(reflexivity) ltac:(vm_compute; reflexivity) H1 H2).
  - intros tok [= <-]. apply (bool_decide_unpack _). by vm_compute.
  - intros tok [= <-]. apply (bool_decide_unpack _). by vm_compute.
Defined.
